(** * Facial expression recognition pipeline: detector adapter, ensemble
      aggregation and orchestration

    A shallow embedding of [controller/cvision.py] and [model/esr/fer.py].

    Conventions of the embedding.
    - Real-valued tensor entries (emotion scores, valence, arousal, the vote
      histogram built by [np.zeros]) are rationals [Q]: every finite float is
      a rational and comparisons on floats are exact, so [np.argmax] and
      [np.clip] are modelled exactly; the rounding of [+] and [/] is
      abstracted (arithmetic is exact), and NaN and the infinities are
      outside the model.
    - Pixel coordinates are integers [Z].
    - A Python exception is identified by the name of its class.
    - External collaborators (dlib, OpenCV, the ESR-9 network, the [uimage]
      and [udata] helper modules) are fields of the class [Externals].
    - Module-level globals and the calls made on external collaborators are
      threaded through a state-and-exception monad. *)

From Stdlib Require Import ZArith QArith Qminmax Lia.
From Stdlib Require Import Lqa.
From stdpp Require Import base list strings.

Local Open Scope Q_scope.

(** ** Exceptions and fallible results *)

Inductive exn : Type := Raise (cls : string).

Definition IndexError : exn := Raise "IndexError".
Definition ValueError : exn := Raise "ValueError".

Inductive result (A : Type) : Type :=
| Ok (a : A)
| Err (e : exn).
Arguments Ok {A} a.
Arguments Err {A} e.

#[global] Instance result_ret : MRet result := fun A a => Ok a.
#[global] Instance result_bind : MBind result := fun A B f m =>
  match m with
  | Ok a => f a
  | Err e => Err e
  end.
#[global] Instance result_fmap : FMap result := fun A B f m =>
  match m with
  | Ok a => Ok (f a)
  | Err e => Err e
  end.

(** ** The fragment of numpy used by the aggregator *)

Module Np.

(** What [np.array] does with rows of unequal length: numpy before 1.24
    builds a one-dimensional array of objects, later versions raise
    [ValueError]. *)
Inductive ragged_policy : Type :=
| RaggedObjectArray
| RaggedValueError.

(** An array is one-dimensional (the empty array, or an object array holding
    ragged rows) or two-dimensional with [ncols] entries in every row. *)
Inductive ndarray : Type :=
| Arr1 (items : list (list Q))
| Arr2 (rows : list (list Q)) (ncols : nat).

Definition uniform (m : nat) (l : list (list Q)) : bool :=
  forallb (fun r => Nat.eqb (length r) m) l.

(** [np.array(rows)] *)
Definition array (p : ragged_policy) (l : list (list Q)) : result ndarray :=
  match l with
  | [] => Ok (Arr1 [])
  | r :: rs =>
      if uniform (length r) rs then Ok (Arr2 l (length r))
      else match p with
           | RaggedObjectArray => Ok (Arr1 l)
           | RaggedValueError => Err ValueError
           end
  end.

(** [a[:, j]] as a value *)
Definition get_col (a : ndarray) (j : nat) : result (list Q) :=
  match a with
  | Arr1 _ => Err IndexError
  | Arr2 rows ncols =>
      if (j <? ncols)%nat then Ok (map (fun r => nth j r 0) rows)
      else Err IndexError
  end.

(** [a[:, j] = col] *)
Definition set_col (a : ndarray) (j : nat) (col : list Q) : result ndarray :=
  match a with
  | Arr1 _ => Err IndexError
  | Arr2 rows ncols =>
      if (j <? ncols)%nat
      then Ok (Arr2 (zip_with (fun r c => <[j := c]> r) rows col) ncols)
      else Err IndexError
  end.

(** [np.clip(x, lo, hi)], which is [minimum(maximum(x, lo), hi)] *)
Definition clip (x lo hi : Q) : Q := Qmin (Qmax x lo) hi.

Definition sum (l : list Q) : Q := fold_right Qplus 0 l.

(** [np.mean(a, 0)]: the mean of every column *)
Definition mean0 (a : ndarray) : result (list Q) :=
  match a with
  | Arr1 _ => Err IndexError
  | Arr2 rows ncols =>
      Ok (map (fun j => sum (map (fun r => nth j r 0) rows)
                        / inject_Z (Z.of_nat (length rows)))
              (seq 0 ncols))
  end.

(** [np.expand_dims(v, axis=0)] *)
Definition expand_dims0 (v : list Q) : ndarray := Arr2 [v] (length v).

(** [np.concatenate((a, b), axis=0)] *)
Definition concatenate0 (a b : ndarray) : result ndarray :=
  match a, b with
  | Arr2 ra ca, Arr2 rb cb =>
      if Nat.eqb ca cb then Ok (Arr2 (ra ++ rb) ca) else Err ValueError
  | _, _ => Err ValueError
  end.

(** [a.shape[1]] *)
Definition shape1 (a : ndarray) : result nat :=
  match a with
  | Arr1 _ => Err IndexError
  | Arr2 _ ncols => Ok ncols
  end.

(** The rows a [for] loop over the array visits. *)
Definition iter (a : ndarray) : list (list Q) :=
  match a with
  | Arr1 items => items
  | Arr2 rows _ => rows
  end.

(** [np.zeros(n)] *)
Definition zeros (n : nat) : list Q := replicate n 0.

Definition Qltb (x y : Q) : bool := negb (Qle_bool y x).

(** The scan of [np.argmax]: the running best is replaced only by a strictly
    greater entry, so the first maximal entry wins. *)
Fixpoint argmax_from (best_i : nat) (best : Q) (i : nat) (l : list Q) : nat :=
  match l with
  | [] => best_i
  | x :: l' =>
      if Qltb best x then argmax_from i x (S i) l'
      else argmax_from best_i best (S i) l'
  end.

(** [np.argmax(v)]; an empty sequence has no argmax. *)
Definition argmax (v : list Q) : result nat :=
  match v with
  | [] => Err ValueError
  | x :: l => Ok (argmax_from 0 x 1 l)
  end.

(** [v[i] += 1] *)
Definition incr_at (v : list Q) (i : nat) : result (list Q) :=
  match v !! i with
  | Some x => Ok (<[i := x + 1]> v)
  | None => Err IndexError
  end.

End Np.

(** ** The aggregation performed by [_predict] (cvision.py, lines 216-241) *)

Section Aggregation.

Variable numpy : Np.ragged_policy.

(** [udata.AffectNetCategorical.get_class]: the table from class index to
    label, owned by the predictor. *)
Variable get_class : nat -> string.

(** Lines 218-224. Every element of [affect] stands for the row
    [a[0].cpu().detach().numpy()] of one branch. *)
Definition _predict_affect (affect : list (list Q)) : result (list (list Q)) :=
  affect ← Np.array numpy affect;
  col ← Np.get_col affect 1;
  affect ← Np.set_col affect 1
             (map (fun a => Np.clip ((a + 1) / 2.0) 0 1) col);
  ensemble_affect ← Np.expand_dims0 <$> Np.mean0 affect;
  to_return_affect ← Np.concatenate0 affect ensemble_affect;
  mret (Np.iter to_return_affect).

(** The body of the loop of lines 233-236, on the pair of the label list and
    the vote histogram. *)
Definition vote_step (acc : list string * list Q) (e : list Q)
  : result (list string * list Q) :=
  e_idx ← Np.argmax e;
  emotion_votes ← Np.incr_at acc.2 e_idx;
  mret (acc.1 ++ [get_class e_idx], emotion_votes).

Fixpoint vote_loop (acc : list string * list Q) (rows : list (list Q))
  : result (list string * list Q) :=
  match rows with
  | [] => Ok acc
  | e :: rows' => acc' ← vote_step acc e; vote_loop acc' rows'
  end.

(** Lines 228-239. *)
Definition _predict_emotion (emotion : list (list Q)) : result (list string) :=
  emotion ← Np.array numpy emotion;
  num_classes ← Np.shape1 emotion;
  acc ← vote_loop ([], Np.zeros num_classes) (Np.iter emotion);
  consensus ← Np.argmax acc.2;
  mret (acc.1 ++ [get_class consensus]).

(** Lines 216-241: the affect block runs first, then the emotion block. *)
Definition aggregate (emotion affect : list (list Q))
  : result (list string * list (list Q)) :=
  to_return_affect ← _predict_affect affect;
  to_return_emotion ← _predict_emotion emotion;
  mret (to_return_emotion, to_return_affect).

End Aggregation.

(** ** The result container (model/esr/fer.py) *)

Module Fer.

Section Container.

Context {image box : Type}.

(** The attributes set by [FER.__init__]; [None] is Python's [None]. *)
Record FER : Type := {
  input_image : option image;
  face_coordinates : option box;
  face_image : option image;
  list_emotion : option (list string);
  list_affect : option (list (list Q));
  _list_grad_cam : option (list image)
}.

(** [FER.__init__]: every parameter defaults to [None]. *)
Definition __init__ (image_ face_image_ : option image)
    (face_coordinates_ : option box) (list_emotion_ : option (list string))
    (list_affect_ : option (list (list Q))) : FER :=
  {| input_image := image_;
     face_coordinates := face_coordinates_;
     face_image := face_image_;
     list_emotion := list_emotion_;
     list_affect := list_affect_;
     _list_grad_cam := None |}.

(** Python's [l[i]]: a negative index counts from the end, an index outside
    the list raises [IndexError]. *)
Definition py_getitem {A : Type} (l : list A) (i : Z) : result A :=
  let n := Z.of_nat (length l) in
  let j := if (i <? 0)%Z then (n + i)%Z else i in
  if ((0 <=? j)%Z && (j <? n)%Z)%bool then
    match l !! Z.to_nat j with
    | Some x => Ok x
    | None => Err IndexError
    end
  else Err IndexError.

(** [FER.get_grad_cam] (lines 34-38) *)
Definition get_grad_cam (self : FER) (i : Z) : result (option image) :=
  match _list_grad_cam self with
  | None => Ok None
  | Some l => Some <$> py_getitem l i
  end.

End Container.

Arguments FER : clear implicits.

End Fer.

(** ** External collaborators *)

(** A rectangle as dlib reports it. *)
Record rect : Type := {
  rect_left : Z;
  rect_right : Z;
  rect_top : Z;
  rect_bottom : Z
}.

(** A face box [[[xi, yi], [xf, yf]]]. *)
Definition box : Type := (Z * Z) * (Z * Z).

Inductive device : Type := cuda | cpu.

(** Everything [cvision.py] imports and calls but does not define. The
    constructors of the three backends read files and may raise; a
    constructed backend returns normally. *)
Class Externals : Type := {
  image : Type;
  tensor : Type;
  (** [ndarray.size] *)
  image_size : image -> Z;
  (** [uimage.convert_bgr_to_grey] *)
  convert_bgr_to_grey : image -> image;
  (** [uimage.resize(image, f=scale)] *)
  resize_f : image -> Q -> image;
  (** [uimage.resize(image, size)] *)
  resize_to : image -> Z * Z -> image;
  (** [image[y0:y1, x0:x1, :]] *)
  crop : image -> Z -> Z -> Z -> Z -> image;
  (** [Ensemble.INPUT_IMAGE_SIZE] *)
  INPUT_IMAGE_SIZE : Z * Z;
  (** [Image.fromarray], [ToTensor], [Normalize] with the ensemble's mean and
      standard deviation, [unsqueeze(0)] *)
  to_normalized_tensor : image -> tensor;
  (** [tensor.to(device)] *)
  tensor_to : tensor -> device -> tensor;
  (** dlib's CNN face detector *)
  cnn_detector : Type;
  cnn_face_detection_model_v1 : string -> result cnn_detector;
  cnn_run : cnn_detector -> image -> option (list rect);
  (** OpenCV's cascade classifier; a detection is [(x, y, w, h)] *)
  cascade : Type;
  CascadeClassifier : string -> result cascade;
  detectMultiScale :
    cascade -> image -> Q -> Z -> Z * Z -> option (list (Z * Z * Z * Z));
  (** The ESR-9 ensemble: per branch, the rows [e[0]] and [a[0]] *)
  ensemble : Type;
  Ensemble_load : device -> result ensemble;
  ensemble_run : ensemble -> tensor -> list (list Q) * list (list Q);
  (** [udata.AffectNetCategorical.get_class] *)
  get_class : nat -> string;
  (** the installed numpy *)
  numpy : Np.ragged_policy
}.

(** ** Globals, external calls and the monad of the module *)

Section Vision.

Context {E : Externals}.

(** A call made on an external backend. *)
Inductive event : Type :=
| DlibConstruct
| DlibRun (img : image)
| HaarConstruct
| HaarRun (img : image)
| EsrLoad (d : device)
| EsrRun (t : tensor).

(** The module-level globals of [cvision.py] and, in [calls], the external
    calls made so far, oldest first. *)
Record world : Type := {
  _FACE_DETECTOR_DLIB : option cnn_detector;
  _FACE_DETECTOR_HAAR_CASCADE : option cascade;
  _ESR_9 : option ensemble;
  calls : list event
}.

Definition M (A : Type) : Type := world -> result A * world.

#[global] Instance M_ret : MRet M := fun A a w => (Ok a, w).
#[global] Instance M_bind : MBind M := fun A B f m w =>
  match m w with
  | (Ok a, w') => f a w'
  | (Err e, w') => (Err e, w')
  end.

Definition emit (ev : event) : M unit := fun w =>
  (Ok tt, {| _FACE_DETECTOR_DLIB := _FACE_DETECTOR_DLIB w;
             _FACE_DETECTOR_HAAR_CASCADE := _FACE_DETECTOR_HAAR_CASCADE w;
             _ESR_9 := _ESR_9 w;
             calls := calls w ++ [ev] |}).

(** Lifts a fallible external call. *)
Definition lift {A : Type} (r : result A) : M A := fun w => (r, w).

Definition get_dlib : M (option cnn_detector) := fun w =>
  (Ok (_FACE_DETECTOR_DLIB w), w).
Definition set_dlib (d : cnn_detector) : M unit := fun w =>
  (Ok tt, {| _FACE_DETECTOR_DLIB := Some d;
             _FACE_DETECTOR_HAAR_CASCADE := _FACE_DETECTOR_HAAR_CASCADE w;
             _ESR_9 := _ESR_9 w;
             calls := calls w |}).

Definition get_haar : M (option cascade) := fun w =>
  (Ok (_FACE_DETECTOR_HAAR_CASCADE w), w).
Definition set_haar (c : cascade) : M unit := fun w =>
  (Ok tt, {| _FACE_DETECTOR_DLIB := _FACE_DETECTOR_DLIB w;
             _FACE_DETECTOR_HAAR_CASCADE := Some c;
             _ESR_9 := _ESR_9 w;
             calls := calls w |}).

Definition get_esr : M (option ensemble) := fun w => (Ok (_ESR_9 w), w).
Definition set_esr (n : ensemble) : M unit := fun w =>
  (Ok tt, {| _FACE_DETECTOR_DLIB := _FACE_DETECTOR_DLIB w;
             _FACE_DETECTOR_HAAR_CASCADE := _FACE_DETECTOR_HAAR_CASCADE w;
             _ESR_9 := Some n;
             calls := calls w |}).

(** ** Constants of [cvision.py] *)

Definition _HAAR_SCALE_FACTOR : Q := 1.2.
Definition _HAAR_NEIGHBORS : Z := 9.
Definition _HAAR_MIN_SIZE : Z * Z := (60, 60)%Z.

Definition _DLIB_SCALE_FACTOR_SMALL_IMAGES : list Q := [0.5; 1.0].
Definition _DLIB_SCALE_FACTOR_LARGE_IMAGES : list Q := [0.2; 0.5].
Definition _DLIB_SCALE_FACTOR_THRESHOLD : Z := (500 * 500)%Z.

Definition _ID_FACE_DETECTOR_DLIB : Z := 1.
Definition _ID_FACE_DETECTOR_DLIB_STANDARD : Z := 2.
Definition _ID_FACE_DETECTOR_HAAR_CASCADE : Z := 3.

(** ** Private methods *)

(** [_dlib_face_detection] (lines 130-157) *)
Definition _dlib_face_detection (img : image) : M (list box) :=
  g ← get_dlib;
  detector ← match g with
             | None =>
                 _ ← emit DlibConstruct;
                 d ← lift (cnn_face_detection_model_v1
                             "./model/utils/templates/dlib/cnn_face_detector.dat");
                 _ ← set_dlib d;
                 mret d
             | Some d => mret d
             end;
  _ ← emit (DlibRun img);
  let faces := cnn_run detector img in
  mret (match faces with
        | Some fs =>
            map (fun r => ((rect_left r, rect_top r),
                           (rect_right r, rect_bottom r))) fs
        | None => []
        end).

(** [_haar_cascade_face_detection] (lines 160-185) *)
Definition _haar_cascade_face_detection (img : image) (scale_factor : Q)
    (neighbors : Z) (min_size : Z * Z) : M (list box) :=
  g ← get_haar;
  classifier ← match g with
               | None =>
                   _ ← emit HaarConstruct;
                   c ← lift (CascadeClassifier
                               "./model/utils/templates/haar_cascade/frontal_face.xml");
                   _ ← set_haar c;
                   mret c
               | Some c => mret c
               end;
  _ ← emit (HaarRun img);
  let faces := detectMultiScale classifier img scale_factor neighbors min_size in
  mret (match faces with
        | Some fs =>
            map (fun '(x, y, w, h) => ((x, y), (x + w, y + h))%Z) fs
        | None => []
        end).

(** [_pre_process_input_image] (lines 188-201) *)
Definition _pre_process_input_image (img : image) : tensor :=
  to_normalized_tensor (resize_to img INPUT_IMAGE_SIZE).

(** [_predict] (lines 204-241) *)
Definition _predict (input_face : tensor) (d : device)
  : M (list string * list (list Q)) :=
  g ← get_esr;
  net ← match g with
        | None =>
            _ ← emit (EsrLoad d);
            n ← lift (Ensemble_load d);
            _ ← set_esr n;
            mret n
        | Some n => mret n
        end;
  _ ← emit (EsrRun input_face);
  let '(emotion, affect) := ensemble_run net input_face in
  lift (aggregate numpy get_class emotion affect).

(** ** Public methods *)

(** [.astype(int)] on a float: truncation towards zero. *)
Definition astype_int (q : Q) : Z := Z.quot (Qnum q) (Z.pos (Qden q)).

(** [((1 / scale) * face_coordinates).astype(int)] on one box *)
Definition rescale_box (scale : Q) (b : box) : box :=
  let f (c : Z) := astype_int ((1 / scale) * inject_Z c) in
  ((f b.1.1, f b.1.2), (f b.2.1, f b.2.2)).

(** [np.sum] of one box *)
Definition box_sum (b : box) : Z := (b.1.1 + b.1.2 + (b.2.1 + b.2.2))%Z.

(** The loop of lines 72-79; [face_coordinates] is the value the variable
    holds when the loop is entered. *)
Fixpoint dlib_scale_loop (greyscale_image : image) (scale_factors : list Q)
    (face_coordinates : list box) : M (list box) :=
  match scale_factors with
  | [] => mret face_coordinates
  | scale :: rest =>
      let greyscale_image_re_scaled := resize_f greyscale_image scale in
      fc ← _dlib_face_detection greyscale_image_re_scaled;
      if (0 <? length fc)%nat
      then mret (map (rescale_box scale) fc)
      else dlib_scale_loop greyscale_image rest fc
  end.

(** Lines 69: the scale factors by the size of the greyscale image. *)
Definition scale_factors_for (greyscale_image : image) : list Q :=
  if (_DLIB_SCALE_FACTOR_THRESHOLD <? image_size greyscale_image)%Z
  then _DLIB_SCALE_FACTOR_LARGE_IMAGES
  else _DLIB_SCALE_FACTOR_SMALL_IMAGES.

(** Lines 60-81 of [detect_face]: the value of [face_coordinates] when the
    [return] statement is reached. [.astype(int)] on the integer array of the
    standard branch leaves every entry as it is. *)
Definition detect_face_coordinates (img : image) (face_detection_method : Z)
  : M (list box) :=
  let greyscale_image := convert_bgr_to_grey img in
  if (face_detection_method =? _ID_FACE_DETECTOR_HAAR_CASCADE)%Z then
    _haar_cascade_face_detection greyscale_image
      _HAAR_SCALE_FACTOR _HAAR_NEIGHBORS _HAAR_MIN_SIZE
  else if (face_detection_method =? _ID_FACE_DETECTOR_DLIB)%Z then
    dlib_scale_loop greyscale_image (scale_factors_for greyscale_image) []
  else
    _dlib_face_detection greyscale_image.

(** Line 84 *)
Definition first_positive (face_coordinates : list box) : option box :=
  match face_coordinates with
  | b :: _ => if (0 <? box_sum b)%Z then Some b else None
  | [] => None
  end.

(** [detect_face] (lines 51-84) *)
Definition detect_face (img : image) (face_detection_method : Z)
  : M (option box) :=
  face_coordinates ← detect_face_coordinates img face_detection_method;
  mret (first_positive face_coordinates).

(** [recognize_facial_expression] (lines 87-123) *)
Definition recognize_facial_expression (img : image) (on_gpu : bool)
    (face_detection_method : Z) : M (Fer.FER image box) :=
  face_coordinates ← detect_face img face_detection_method;
  match face_coordinates with
  | None => mret (Fer.__init__ (Some img) None None None None)
  | Some fc =>
      let face := crop img fc.1.2 fc.2.2 fc.1.1 fc.2.1 in
      let d := if on_gpu then cuda else cpu in
      let input_face := _pre_process_input_image face in
      let input_face := tensor_to input_face d in
      '(emotion, affect) ← _predict input_face d;
      mret (Fer.__init__ (Some img) (Some face) (Some fc)
                         (Some emotion) (Some affect))
  end.

End Vision.

(** ** Vocabulary of the statements *)

(** [k] is the index of the first maximal entry of [v]. *)
Definition first_max (v : list Q) (k : nat) : Prop :=
  exists x, v !! k = Some x
    /\ (forall j y, v !! j = Some y -> y <= x)
    /\ (forall j y, (j < k)%nat -> v !! j = Some y -> y < x).

(** The spec's [clamp]. *)
Definition clamp (x lo hi : Q) : Q :=
  if Np.Qltb x lo then lo else if Np.Qltb hi x then hi else x.

(** The arithmetic mean of a list. *)
Definition mean (l : list Q) : Q := Np.sum l / inject_Z (Z.of_nat (length l)).

(** What lines 219-220 do to one row. *)
Definition renorm_row (r : list Q) : list Q :=
  <[1%nat := Np.clip ((nth 1 r 0 + 1) / 2.0) 0 1]> r.

(** [votes] is the histogram of the class indices [idxs] over [m] classes. *)
Definition histogram_of (m : nat) (votes : list Q) (idxs : list nat) : Prop :=
  length votes = m
  /\ forall c, (c < m)%nat ->
       votes !! c = Some (inject_Z (Z.of_nat (count_occ Nat.eq_dec idxs c))).

Section Readiness.

Context {E : Externals}.

(** The ensemble handle [net] is cached, or the first use will load it. *)
Definition esr_ready (w : world) (d : device) (net : ensemble) : Prop :=
  _ESR_9 w = Some net \/ (_ESR_9 w = None /\ Ensemble_load d = Ok net).

(** The CNN detector [det] is cached, or the first use will construct it. *)
Definition dlib_ready (w : world) (det : cnn_detector) : Prop :=
  _FACE_DETECTOR_DLIB w = Some det
  \/ (_FACE_DETECTOR_DLIB w = None
      /\ cnn_face_detection_model_v1
           "./model/utils/templates/dlib/cnn_face_detector.dat" = Ok det).

(** The cascade classifier [c] is cached, or the first use will construct it. *)
Definition haar_ready (w : world) (c : cascade) : Prop :=
  _FACE_DETECTOR_HAAR_CASCADE w = Some c
  \/ (_FACE_DETECTOR_HAAR_CASCADE w = None
      /\ CascadeClassifier
           "./model/utils/templates/haar_cascade/frontal_face.xml" = Ok c).

(** The images any detector was run on, oldest first. *)
Definition detector_runs (evs : list event) : list image :=
  flat_map (fun ev => match ev with
                      | DlibRun img | HaarRun img => [img]
                      | _ => []
                      end) evs.

(** The boxes of the rectangles a CNN detector run reports. *)
Definition rect_boxes (faces : option (list rect)) : list box :=
  match faces with
  | Some fs =>
      map (fun r => ((rect_left r, rect_top r), (rect_right r, rect_bottom r))) fs
  | None => []
  end.

End Readiness.

(** ** The detector adapter read as a function of the detectors' answers *)

Section Candidates.

Context {E : Externals}.

(** The boxes of the detections a cascade run reports. *)
Definition haar_boxes (faces : option (list (Z * Z * Z * Z))) : list box :=
  match faces with
  | Some fs => map (fun '(x, y, w, h) => ((x, y), (x + w, y + h))%Z) fs
  | None => []
  end.

(** The boxes the CNN detector [det] reports on [grey] resized by [s]. *)
Definition faces_at (det : cnn_detector) (grey : image) (s : Q) : list box :=
  rect_boxes (cnn_run det (resize_f grey s)).

(** The rescaled boxes of the first scale at which [det] reports a face. *)
Fixpoint first_hit (det : cnn_detector) (grey : image) (scales : list Q)
  : list box :=
  match scales with
  | [] => []
  | s :: rest =>
      if (0 <? length (faces_at det grey s))%nat
      then map (rescale_box s) (faces_at det grey s)
      else first_hit det grey rest
  end.

(** The scales up to and including the first at which [det] reports a face. *)
Fixpoint tried (det : cnn_detector) (grey : image) (scales : list Q) : list Q :=
  match scales with
  | [] => []
  | s :: rest =>
      s :: (if (0 <? length (faces_at det grey s))%nat then []
            else tried det grey rest)
  end.

(** The handle the selected backend needs is cached or constructible. *)
Definition backend_ready (w : world) (face_detection_method : Z)
    (det : cnn_detector) (c : cascade) : Prop :=
  if (face_detection_method =? _ID_FACE_DETECTOR_HAAR_CASCADE)%Z
  then haar_ready w c else dlib_ready w det.

(** The candidate boxes of the selected backend, in the order in which the
    backend reports them. *)
Definition candidates (det : cnn_detector) (c : cascade) (img : image)
    (face_detection_method : Z) : list box :=
  let grey := convert_bgr_to_grey img in
  if (face_detection_method =? _ID_FACE_DETECTOR_HAAR_CASCADE)%Z then
    haar_boxes (detectMultiScale c grey _HAAR_SCALE_FACTOR _HAAR_NEIGHBORS
                  _HAAR_MIN_SIZE)
  else if (face_detection_method =? _ID_FACE_DETECTOR_DLIB)%Z then
    first_hit det grey (scale_factors_for grey)
  else
    rect_boxes (cnn_run det grey).

(** The images the selected backend runs a detector on, in order. *)
Definition images_tried (det : cnn_detector) (img : image)
    (face_detection_method : Z) : list image :=
  let grey := convert_bgr_to_grey img in
  if (face_detection_method =? _ID_FACE_DETECTOR_HAAR_CASCADE)%Z then [grey]
  else if (face_detection_method =? _ID_FACE_DETECTOR_DLIB)%Z then
    map (resize_f grey) (tried det grey (scale_factors_for grey))
  else [grey].

(** No call was made on the ensemble between two states. *)
Definition ensemble_untouched (w w' : world) : Prop :=
  _ESR_9 w' = _ESR_9 w
  /\ flat_map (fun ev => match ev with
                         | EsrLoad _ | EsrRun _ => [ev]
                         | _ => []
                         end) (calls w')
     = flat_map (fun ev => match ev with
                           | EsrLoad _ | EsrRun _ => [ev]
                           | _ => []
                           end) (calls w).

(** From [w] to [w'] the detectors were run on exactly [imgs], in this
    order, and the ensemble was left alone. *)
Definition detector_step (w w' : world) (imgs : list image) : Prop :=
  detector_runs (calls w') = detector_runs (calls w) ++ imgs
  /\ ensemble_untouched w w'.

End Candidates.

(** [b'] is [b] with every coordinate multiplied by [k]. *)
Definition box_times (k : Z) (b : box) : box :=
  ((k * b.1.1, k * b.1.2), (k * b.2.1, k * b.2.2))%Z.

(** ** Lazy initialisation, statement by statement

    The three handles are initialised by the same three statements (lines
    145-149, 176-180 and 207-214): test the global against [None], call the
    constructor and assign the global, then read the global to call the
    handle. No lock surrounds them, so when several callers run in threads
    the interpreter may switch between any two of these steps. *)

Section LazyInit.

Context {E : Externals}.

Inductive handle_kind : Type :=
| CnnDetector
| CascadeClassifierHandle
| EnsemblePredictor (d : device).

Definition handle_type (k : handle_kind) : Type :=
  match k with
  | CnnDetector => cnn_detector
  | CascadeClassifierHandle => cascade
  | EnsemblePredictor _ => ensemble
  end.

(** One lazily initialised global: reading it, assigning it, its
    constructor, and the call the constructor leaves in the trace. *)
Record lazy_global (H : Type) : Type := {
  read : world -> option H;
  assign : H -> M unit;
  construct : result H;
  construct_event : event;
  is_construct_event : event -> bool
}.
Arguments read {H} _ _.
Arguments assign {H} _ _.
Arguments construct {H} _.
Arguments construct_event {H} _.
Arguments is_construct_event {H} _ _.

Definition global_of (k : handle_kind) : lazy_global (handle_type k) :=
  match k with
  | CnnDetector =>
      {| read := _FACE_DETECTOR_DLIB;
         assign := set_dlib;
         construct := cnn_face_detection_model_v1
                        "./model/utils/templates/dlib/cnn_face_detector.dat";
         construct_event := DlibConstruct;
         is_construct_event :=
           fun ev => match ev with DlibConstruct => true | _ => false end |}
  | CascadeClassifierHandle =>
      {| read := _FACE_DETECTOR_HAAR_CASCADE;
         assign := set_haar;
         construct := CascadeClassifier
                        "./model/utils/templates/haar_cascade/frontal_face.xml";
         construct_event := HaarConstruct;
         is_construct_event :=
           fun ev => match ev with HaarConstruct => true | _ => false end |}
  | EnsemblePredictor d =>
      {| read := _ESR_9;
         assign := set_esr;
         construct := Ensemble_load d;
         construct_event := EsrLoad d;
         is_construct_event :=
           fun ev => match ev with EsrLoad _ => true | _ => false end |}
  end.

(** Where a caller stands in the three statements. *)
Inductive pc (H : Type) : Type :=
| AtTest
| AtConstruct
| AtAssign (h : H)
| AtUse
| Holds (h : H)
| Raised (e : exn).
Arguments AtTest {H}.
Arguments AtConstruct {H}.
Arguments AtAssign {H} h.
Arguments AtUse {H}.
Arguments Holds {H} h.
Arguments Raised {H} e.

(** One step of one caller. Calling [None] raises [TypeError]. *)
Definition thread_step {H : Type} (g : lazy_global H) (p : pc H) (w : world)
  : pc H * world :=
  match p with
  | AtTest =>
      (match read g w with None => AtConstruct | Some _ => AtUse end, w)
  | AtConstruct =>
      (match construct g with Ok h => AtAssign h | Err e => Raised e end,
       (emit (construct_event g) w).2)
  | AtAssign h => (AtUse, (assign g h w).2)
  | AtUse =>
      (match read g w with
       | Some h => Holds h
       | None => Raised (Raise "TypeError")
       end, w)
  | Holds h => (Holds h, w)
  | Raised e => (Raised e, w)
  end.

(** The callers and the shared state; caller [i] makes the next step. *)
Definition pool_step {H : Type} (g : lazy_global H) (st : list (pc H) * world)
    (i : nat) : list (pc H) * world :=
  match st.1 !! i with
  | Some p => let r := thread_step g p st.2 in (<[i := r.1]> st.1, r.2)
  | None => st
  end.

(** A schedule names the caller that steps next. *)
Definition exec {H : Type} (g : lazy_global H) (schedule : list nat)
    (st : list (pc H) * world) : list (pc H) * world :=
  fold_left (pool_step g) schedule st.

(** Callers one after the other: each makes its four steps before the next
    one starts. *)
Definition sequential (N : nat) : list nat :=
  flat_map (fun i => replicate 4 i) (seq 0 N).

(** [k] steps of one caller on its own. *)
Fixpoint thread_steps {H : Type} (g : lazy_global H) (k : nat)
    (st : pc H * world) : pc H * world :=
  match k with
  | O => st
  | S k' => thread_steps g k' (thread_step g st.1 st.2)
  end.

(** What the steps rely on: an assignment is read back and leaves the trace
    alone, a call recorded in the trace leaves the global alone, and the
    constructor's call is recognised in the trace. *)
Definition lawful {H : Type} (g : lazy_global H) : Prop :=
  (forall h w, read g (assign g h w).2 = Some h)
  /\ (forall h w, calls (assign g h w).2 = calls w)
  /\ (forall ev w, read g (emit ev w).2 = read g w)
  /\ is_construct_event g (construct_event g) = true.

(** How often the constructor of [g] has been called. *)
Definition constructions {H : Type} (g : lazy_global H) (w : world) : nat :=
  length (List.filter (is_construct_event g) (calls w)).

End LazyInit.

Arguments read {E H} _ _.
Arguments assign {E H} _ _.
Arguments construct {E H} _.
Arguments construct_event {E H} _.
Arguments is_construct_event {E H} _ _.
Arguments AtTest {H}.
Arguments AtConstruct {H}.
Arguments AtAssign {H} h.
Arguments AtUse {H}.
Arguments Holds {H} h.
Arguments Raised {H} e.


(** An ensemble output of [n] branches over [m] emotion classes: one
    emotion-score vector of length [m] and one [(valence, arousal)] pair per
    branch. *)
Definition ensemble_output (n m : nat) (emotion affect : list (list Q)) : Prop :=
  length emotion = n /\ length affect = n
  /\ Forall (fun e => length e = m) emotion
  /\ Forall (fun a => length a = 2%nat) affect.

(** Entry-wise equality of rational matrices. *)
Definition rows_eq (a b : list (list Q)) : Prop := Forall2 (Forall2 Qeq) a b.

(** ** A concrete set of collaborators *)

Module Demo.

(** An image that carries what a detector finds in it at its current
    resolution ([cur]) and after a resize by each factor ([at_scale]). *)
Record demo_image : Type := {
  px : Z;
  cur : list rect;
  at_scale : list (Q * list rect)
}.

Definition demo_resize (img : demo_image) (f : Q) : demo_image :=
  {| px := px img;
     cur := match find (fun p => Qeq_bool p.1 f) (at_scale img) with
            | Some p => p.2
            | None => []
            end;
     at_scale := at_scale img |}.

(** Modelled from the spec: the class-index-to-name table of
    [udata.AffectNetCategorical], which is not among the sources. *)
Definition affectnet_class (idx : nat) : string :=
  nth idx ["Neutral"; "Happy"; "Sad"; "Surprise"; "Fear"; "Disgust"; "Anger";
           "Contempt"]%string ""%string.

(** The detectors report [cur]; the network returns the tensor it is given,
    read as its per-branch outputs. *)
Definition externals : Externals := {|
  image := demo_image;
  tensor := list (list Q) * list (list Q);
  image_size := px;
  convert_bgr_to_grey := fun img => img;
  resize_f := demo_resize;
  resize_to := fun img _ => img;
  crop := fun img _ _ _ _ => img;
  INPUT_IMAGE_SIZE := (96, 96)%Z;
  to_normalized_tensor := fun _ => ([[0; 1]; [0; 1]], [[0; 0]; [0; 0]]);
  tensor_to := fun t _ => t;
  cnn_detector := unit;
  cnn_face_detection_model_v1 := fun _ => Ok tt;
  cnn_run := fun _ img => Some (cur img);
  cascade := unit;
  CascadeClassifier := fun _ => Ok tt;
  detectMultiScale := fun _ img _ _ _ =>
    Some (map (fun r => (rect_left r, rect_top r,
                         rect_right r - rect_left r,
                         rect_bottom r - rect_top r)%Z) (cur img));
  ensemble := unit;
  Ensemble_load := fun _ => Ok tt;
  ensemble_run := fun _ t => t;
  get_class := affectnet_class;
  numpy := Np.RaggedObjectArray
|}.

(** The state of a fresh process: nothing constructed, nothing called. *)
Definition fresh : @world externals :=
  {| _FACE_DETECTOR_DLIB := None;
     _FACE_DETECTOR_HAAR_CASCADE := None;
     _ESR_9 := None;
     calls := [] |}.

Definition face : rect :=
  {| rect_left := 10; rect_right := 50; rect_top := 20; rect_bottom := 60 |}.

Definition other_face : rect :=
  {| rect_left := 70; rect_right := 90; rect_top := 5; rect_bottom := 25 |}.

(** A rectangle that reaches far outside the image on the upper left. *)
Definition outside_face : rect :=
  {| rect_left := -50; rect_right := 30; rect_top := -50; rect_bottom := 30 |}.

Definition no_face_image : demo_image :=
  {| px := 640 * 480; cur := []; at_scale := [] |}.

Definition large_image : demo_image :=
  {| px := 640 * 480; cur := [face]; at_scale := [(0.2, [face; other_face])] |}.

Definition small_image : demo_image :=
  {| px := 320 * 240; cur := [face]; at_scale := [(1.0, [face])] |}.

Definition outside_image : demo_image :=
  {| px := 320 * 240; cur := [outside_face; face]; at_scale := [] |}.

End Demo.

(** The two entries of a branch's affect vector. *)
Definition valence (r : list Q) : Q := nth 0 r 0.
Definition arousal (r : list Q) : Q := nth 1 r 0.

(** The class index with the most votes among [idxs], the lowest such index
    on a tie, over [m] classes. *)
Definition majority (m : nat) (idxs : list nat) (c : nat) : Prop :=
  (c < m)%nat
  /\ (forall c', (c' < m)%nat ->
        (count_occ Nat.eq_dec idxs c' <= count_occ Nat.eq_dec idxs c)%nat)
  /\ (forall c', (c' < c)%nat ->
        (count_occ Nat.eq_dec idxs c' < count_occ Nat.eq_dec idxs c)%nat).

(** ** Concrete ensemble outputs *)

Module Outputs.

(** Three branches over three classes whose best classes are 1, 1 and 2;
    the second branch scores classes 1 and 2 equally. *)
Definition emotion_1_1_2 : list (list Q) :=
  [[0.1; 0.7; 0.2]; [0.2; 0.4; 0.4]; [0; 0.3; 0.9]]%Q.

Definition affect_3 : list (list Q) :=
  [[0.2; -1.0]; [0.8; 1.0]; [-0.4; 3.0]]%Q.

(** Two branches whose best classes are 0 and 1. *)
Definition emotion_0_1 : list (list Q) := [[0.9; 0.1]; [0.2; 0.6]]%Q.

Definition affect_2 : list (list Q) := [[0.2; -1.0]; [0.8; 1.0]]%Q.

(** Two branches that report three and two classes. *)
Definition emotion_ragged : list (list Q) := [[0.1; 0.7; 0.2]; [0.9; 0.1]]%Q.

End Outputs.

(** ** Vocabulary of the further properties *)

Section Frames.

Context {E : Externals}.

(** [w] with [evs] appended to its trace and nothing else changed. *)
Definition append_calls (w : world) (evs : list event) : world :=
  {| _FACE_DETECTOR_DLIB := _FACE_DETECTOR_DLIB w;
     _FACE_DETECTOR_HAAR_CASCADE := _FACE_DETECTOR_HAAR_CASCADE w;
     _ESR_9 := _ESR_9 w;
     calls := calls w ++ evs |}.

(** The handle the selected backend needs is already cached. *)
Definition backend_cached (w : world) (face_detection_method : Z)
    (det : cnn_detector) (c : cascade) : Prop :=
  if (face_detection_method =? _ID_FACE_DETECTOR_HAAR_CASCADE)%Z
  then _FACE_DETECTOR_HAAR_CASCADE w = Some c
  else _FACE_DETECTOR_DLIB w = Some det.

(** The run of the selected backend's detector on [img], as an event. *)
Definition run_event (face_detection_method : Z) (img : image) : event :=
  if (face_detection_method =? _ID_FACE_DETECTOR_HAAR_CASCADE)%Z
  then HaarRun img else DlibRun img.

(** The calls in a trace that construct or load a backend handle. *)
Definition construct_calls (evs : list event) : list event :=
  List.filter (fun ev => match ev with
                         | DlibConstruct | HaarConstruct | EsrLoad _ => true
                         | _ => false
                         end) evs.

(** The tensors the ensemble was run on, oldest first. *)
Definition ensemble_runs (evs : list event) : list tensor :=
  flat_map (fun ev => match ev with EsrRun t => [t] | _ => [] end) evs.

End Frames.

(** A detection as OpenCV reports it: a corner inside the image and a
    window of positive size. *)
Definition natural_detection (f : Z * Z * Z * Z) : Prop :=
  (0 <= f.1.1.1 /\ 0 <= f.1.1.2 /\ 0 < f.1.2 /\ 0 < f.2)%Z.

(** The box lies with its first corner above and left of its second. *)
Definition proper_box (b : box) : Prop := (b.1.1 < b.2.1 /\ b.1.2 < b.2.2)%Z.

(** The class a branch votes for; 0 where [np.argmax] raises. *)
Definition branch_class (e : list Q) : nat :=
  match Np.argmax e with
  | Ok k => k
  | Err _ => 0%nat
  end.

Module DemoFailures.

(** The collaborators of [Demo.externals], with the outcomes of the CNN
    detector's constructor and of [Ensemble.load] as parameters. *)
Definition with_constructors (cnn_new esr_new : result unit) : Externals := {|
  image := Demo.demo_image;
  tensor := list (list Q) * list (list Q);
  image_size := Demo.px;
  convert_bgr_to_grey := fun img => img;
  resize_f := Demo.demo_resize;
  resize_to := fun img _ => img;
  crop := fun img _ _ _ _ => img;
  INPUT_IMAGE_SIZE := (96, 96)%Z;
  to_normalized_tensor := fun _ => ([[0; 1]; [0; 1]], [[0; 0]; [0; 0]]);
  tensor_to := fun t _ => t;
  cnn_detector := unit;
  cnn_face_detection_model_v1 := fun _ => cnn_new;
  cnn_run := fun _ img => Some (Demo.cur img);
  cascade := unit;
  CascadeClassifier := fun _ => Ok tt;
  detectMultiScale := fun _ img _ _ _ =>
    Some (map (fun r => (rect_left r, rect_top r,
                         rect_right r - rect_left r,
                         rect_bottom r - rect_top r)%Z) (Demo.cur img));
  ensemble := unit;
  Ensemble_load := fun _ => esr_new;
  ensemble_run := fun _ t => t;
  get_class := Demo.affectnet_class;
  numpy := Np.RaggedValueError
|}.

(** The detector's model file cannot be read. *)
Definition no_detector_file : Externals :=
  with_constructors (Err (Raise "RuntimeError")) (Ok tt).

(** The ensemble's weights cannot be read. *)
Definition no_weights : Externals :=
  with_constructors (Ok tt) (Err (Raise "FileNotFoundError")).

Definition fresh (E : Externals) : @world E :=
  {| _FACE_DETECTOR_DLIB := None;
     _FACE_DETECTOR_HAAR_CASCADE := None;
     _ESR_9 := None;
     calls := [] |}.

End DemoFailures.

Section FirstUse.

Context {E : Externals}.

(** The call that constructs the selected backend's handle, as an event. *)
Definition backend_construct_event (face_detection_method : Z) : event :=
  if (face_detection_method =? _ID_FACE_DETECTOR_HAAR_CASCADE)%Z
  then HaarConstruct else DlibConstruct.

(** The global of the selected backend still holds [None]. *)
Definition backend_absent (w : world) (face_detection_method : Z) : Prop :=
  if (face_detection_method =? _ID_FACE_DETECTOR_HAAR_CASCADE)%Z
  then _FACE_DETECTOR_HAAR_CASCADE w = None
  else _FACE_DETECTOR_DLIB w = None.

(** The constructor of the selected backend returns the handle. *)
Definition backend_constructs (face_detection_method : Z)
    (det : cnn_detector) (c : cascade) : Prop :=
  if (face_detection_method =? _ID_FACE_DETECTOR_HAAR_CASCADE)%Z
  then CascadeClassifier
         "./model/utils/templates/haar_cascade/frontal_face.xml" = Ok c
  else cnn_face_detection_model_v1
         "./model/utils/templates/dlib/cnn_face_detector.dat" = Ok det.

End FirstUse.

Module DemoStates.

(** A process in which the CNN detector and the ensemble are already
    cached. *)
Definition warm : @world Demo.externals :=
  {| _FACE_DETECTOR_DLIB := Some (tt : @cnn_detector Demo.externals);
     _FACE_DETECTOR_HAAR_CASCADE := None;
     _ESR_9 := Some (tt : @ensemble Demo.externals);
     calls := [] |}.

End DemoStates.

Module EdgeOutputs.

(** Two branches that report no emotion class at all. *)
Definition emotion_no_classes : list (list Q) := [[]; []].

(** Two branches whose affect vectors hold the valence only. *)
Definition affect_valence_only : list (list Q) := [[0.2]; [0.8]]%Q.

End EdgeOutputs.

Section Schedules.

Context {E : Externals}.

(** The caller has not called the constructor yet and may still do so. *)
Definition may_construct {H : Type} (p : pc H) : bool :=
  match p with
  | AtTest | AtConstruct => true
  | _ => false
  end.

(** The number of callers that may still call the constructor. *)
Definition pending {H : Type} (pool : list (pc H)) : nat :=
  length (List.filter may_construct pool).

(** What holds of every caller when the constructor returns [h]: a handle
    it carries is [h], it is past the [if] only when the global holds [h],
    and it has not raised. *)
Definition pc_ok {H : Type} (g : lazy_global H) (h : H) (w : world)
    (p : pc H) : Prop :=
  match p with
  | AtTest | AtConstruct => True
  | AtAssign h' => h' = h
  | AtUse => read g w = Some h
  | Holds h' => h' = h /\ read g w = Some h
  | Raised _ => False
  end.

End Schedules.

(** * Properties *)

(** ** [np.argmax] returns the first maximal entry *)

Lemma Qltb_true x y : Np.Qltb x y = true <-> x < y.
Proof.
  unfold Np.Qltb. rewrite negb_true_iff.
  destruct (Qle_bool y x) eqn:Hb.
  - apply Qle_bool_iff in Hb. split; [discriminate|].
    intros Hlt. exfalso. eapply Qlt_not_le; eauto.
  - split; [|reflexivity]. intros _. apply Qnot_le_lt.
    intros Hle. apply Qle_bool_iff in Hle. congruence.
Qed.

Lemma Qltb_false x y : Np.Qltb x y = false <-> y <= x.
Proof.
  destruct (Np.Qltb x y) eqn:Hb.
  - apply Qltb_true in Hb. split; [discriminate|].
    intros Hle. exfalso. eapply Qlt_not_le; eauto.
  - split; [|reflexivity]. intros _. apply Qnot_lt_le. intros Hlt.
    apply Qltb_true in Hlt. congruence.
Qed.

Lemma argmax_from_first_max (l pre : list Q) (best_i : nat) (best : Q) :
  pre !! best_i = Some best ->
  (forall j y, pre !! j = Some y -> y <= best) ->
  (forall j y, (j < best_i)%nat -> pre !! j = Some y -> y < best) ->
  first_max (pre ++ l) (Np.argmax_from best_i best (length pre) l).
Proof.
  revert pre best_i best.
  induction l as [|x l IH]; intros pre best_i best Hbest Hle Hlt; simpl.
  - rewrite app_nil_r. exists best. auto.
  - assert (Hlen : length (pre ++ [x]) = S (length pre))
      by (rewrite length_app; simpl; lia).
    replace (pre ++ x :: l) with ((pre ++ [x]) ++ l)
      by (rewrite <- app_assoc; reflexivity).
    rewrite <- Hlen.
    destruct (Np.Qltb best x) eqn:Hcmp.
    + apply Qltb_true in Hcmp. apply IH.
      * rewrite lookup_app_r by lia. rewrite Nat.sub_diag. reflexivity.
      * intros j y Hj. apply lookup_app_Some in Hj as [Hj|[_ Hj]].
        -- apply Qlt_le_weak. eapply Qle_lt_trans; eauto.
        -- destruct (j - length pre)%nat; simpl in Hj; [|done].
           injection Hj as <-. apply Qle_refl.
      * intros j y Hjlt Hj. rewrite lookup_app_l in Hj by lia.
        eapply Qle_lt_trans; eauto.
    + apply Qltb_false in Hcmp. apply IH.
      * rewrite lookup_app_l; [done|]. eapply lookup_lt_Some; eauto.
      * intros j y Hj. apply lookup_app_Some in Hj as [Hj|[_ Hj]]; [eauto|].
        destruct (j - length pre)%nat; simpl in Hj; [|done].
        injection Hj as <-. done.
      * intros j y Hjlt Hj. apply lookup_lt_Some in Hbest.
        rewrite lookup_app_l in Hj by lia. eauto.
Qed.

Lemma argmax_first_max (v : list Q) (k : nat) :
  Np.argmax v = Ok k -> first_max v k.
Proof.
  destruct v as [|x l]; simpl; [discriminate|].
  intros [= <-].
  apply (argmax_from_first_max l [x] 0 x).
  - reflexivity.
  - intros [|j] y Hj; simpl in Hj; [|done]. injection Hj as <-. apply Qle_refl.
  - intros j y Hj. lia.
Qed.

Lemma first_max_lt_length (v : list Q) (k : nat) :
  first_max v k -> (k < length v)%nat.
Proof. intros (x & Hk & _). eapply lookup_lt_Some; eauto. Qed.

Lemma first_max_unique (v : list Q) (k k' : nat) :
  first_max v k -> first_max v k' -> k = k'.
Proof.
  intros (x & Hk & Hle & Hlt) (x' & Hk' & Hle' & Hlt').
  destruct (Nat.lt_trichotomy k k') as [H|[H|H]]; [|done|]; exfalso.
  - specialize (Hlt' _ _ H Hk). specialize (Hle _ _ Hk').
    eapply Qlt_not_le; eauto.
  - specialize (Hlt _ _ H Hk'). specialize (Hle' _ _ Hk).
    eapply Qlt_not_le; eauto.
Qed.

Lemma argmax_total (v : list Q) :
  (0 < length v)%nat -> exists k, Np.argmax v = Ok k.
Proof. destruct v; simpl; [lia|eauto]. Qed.

(** ** [np.array] on rows of equal length *)

Lemma uniform_Forall (m : nat) (l : list (list Q)) :
  Np.uniform m l = true <-> Forall (fun r => length r = m) l.
Proof.
  unfold Np.uniform. rewrite forallb_forall, Forall_forall.
  split; intros H r Hr.
  - apply Nat.eqb_eq, H. by apply list_elem_of_In.
  - apply Nat.eqb_eq, H. by apply list_elem_of_In.
Qed.

Lemma array_uniform (p : Np.ragged_policy) (l : list (list Q)) (m : nat) :
  (0 < length l)%nat -> Forall (fun r => length r = m) l ->
  Np.array p l = Ok (Np.Arr2 l m).
Proof.
  destruct l as [|r rs]; simpl; [lia|].
  intros _ Hall. inversion Hall as [|? ? Hr Hrs]; subst.
  assert (Hu : Np.uniform (length r) rs = true) by by apply uniform_Forall.
  by rewrite Hu.
Qed.

(** ** The affect block *)

Lemma clip_clamp (x lo hi : Q) : lo <= hi -> Np.clip x lo hi == clamp x lo hi.
Proof.
  intros Hlohi. unfold Np.clip, clamp.
  destruct (Np.Qltb x lo) eqn:H1.
  - apply Qltb_true in H1.
    rewrite (Q.max_r x lo) by by apply Qlt_le_weak.
    by rewrite Q.min_l.
  - apply Qltb_false in H1. rewrite (Q.max_l x lo) by done.
    destruct (Np.Qltb hi x) eqn:H2.
    + apply Qltb_true in H2. rewrite Q.min_r; [reflexivity|].
      by apply Qlt_le_weak.
    + apply Qltb_false in H2. by rewrite Q.min_l.
Qed.

Lemma set_col_renorm (rows : list (list Q)) :
  zip_with (fun r c => <[1%nat := c]> r) rows
    (map (fun a => Np.clip ((a + 1) / 2.0) 0 1)
       (map (fun r => nth 1 r 0) rows))
  = map renorm_row rows.
Proof. induction rows as [|r rows IH]; simpl; [done|]. by rewrite IH. Qed.

Lemma _predict_affect_ok (p : Np.ragged_policy) (affect : list (list Q)) (m : nat) :
  (0 < length affect)%nat -> (2 <= m)%nat ->
  Forall (fun r => length r = m) affect ->
  _predict_affect p affect
  = Ok (map renorm_row affect
        ++ [map (fun j => Np.sum (map (fun r => nth j r 0) (map renorm_row affect))
                          / inject_Z (Z.of_nat (length affect)))
                (seq 0 m)]).
Proof.
  intros Hn Hm Hall. unfold _predict_affect.
  rewrite (array_uniform p affect m Hn Hall). simpl.
  destruct (Nat.ltb_spec 1 m) as [_|]; [simpl|lia].
  rewrite set_col_renorm. rewrite length_map, length_seq, Nat.eqb_refl. simpl.
  by rewrite length_map.
Qed.

(** ** The emotion block: vote histogram and consensus *)

Lemma inject_Z_succ (z : Z) : inject_Z z + 1 = inject_Z (z + 1).
Proof. unfold Qplus, inject_Z. simpl. by rewrite Z.mul_1_r. Qed.

Lemma histogram_zeros (m : nat) : histogram_of m (Np.zeros m) [].
Proof.
  split; [apply length_replicate|].
  intros c Hc. simpl. unfold Np.zeros. by rewrite lookup_replicate_2.
Qed.

Lemma histogram_incr (m : nat) (votes : list Q) (idxs : list nat) (k : nat) :
  histogram_of m votes idxs -> (k < m)%nat ->
  exists votes', Np.incr_at votes k = Ok votes'
    /\ histogram_of m votes' (idxs ++ [k]).
Proof.
  intros [Hlen Hv] Hk. unfold Np.incr_at. rewrite (Hv k Hk).
  eexists; split; [reflexivity|]. split; [by rewrite length_insert|].
  intros c Hc. rewrite count_occ_app. simpl.
  destruct (Nat.eq_dec k c) as [->|Hne].
  - rewrite list_lookup_insert_eq by lia. rewrite inject_Z_succ.
    do 2 f_equal. lia.
  - rewrite list_lookup_insert_ne by done. rewrite (Hv c Hc).
    do 2 f_equal. lia.
Qed.

Lemma vote_loop_spec (get_class : nat -> string) (m : nat) (rows : list (list Q)) :
  (1 <= m)%nat -> Forall (fun e => length e = m) rows ->
  forall labels votes idxs0,
    histogram_of m votes idxs0 ->
    exists idxs votes',
      vote_loop get_class (labels, votes) rows
      = Ok (labels ++ map get_class idxs, votes')
      /\ Forall2 (fun e k => Np.argmax e = Ok k) rows idxs
      /\ histogram_of m votes' (idxs0 ++ idxs).
Proof.
  intros Hm. induction 1 as [|e rows He Hrows IH]; intros labels votes idxs0 Hh.
  - exists [], votes. simpl. rewrite !app_nil_r. auto.
  - destruct (argmax_total e) as [k Hk]; [lia|].
    assert (Hkm : (k < m)%nat).
    { rewrite <- He. by apply first_max_lt_length, argmax_first_max. }
    destruct (histogram_incr m votes idxs0 k Hh Hkm) as (votes1 & Hincr & Hh1).
    destruct (IH (labels ++ [get_class k]) votes1 (idxs0 ++ [k]) Hh1)
      as (idxs & votes' & Hloop & Hidx & Hh').
    exists (k :: idxs), votes'. split; [|split].
    + simpl. unfold vote_step. rewrite Hk. simpl. rewrite Hincr. simpl.
      rewrite Hloop. by rewrite <- app_assoc.
    + by constructor.
    + by rewrite <- app_assoc in Hh'.
Qed.

Lemma _predict_emotion_ok (p : Np.ragged_policy) (get_class : nat -> string)
    (emotion : list (list Q)) (m : nat) :
  (0 < length emotion)%nat -> (1 <= m)%nat ->
  Forall (fun e => length e = m) emotion ->
  exists idxs votes consensus,
    vote_loop get_class ([], Np.zeros m) emotion = Ok (map get_class idxs, votes)
    /\ Forall2 (fun e k => Np.argmax e = Ok k) emotion idxs
    /\ histogram_of m votes idxs
    /\ Np.argmax votes = Ok consensus
    /\ _predict_emotion p get_class emotion
       = Ok (map get_class idxs ++ [get_class consensus]).
Proof.
  intros Hn Hm Hall.
  destruct (vote_loop_spec get_class m emotion Hm Hall [] (Np.zeros m) [])
    as (idxs & votes & Hloop & Hidx & Hh); [apply histogram_zeros|].
  simpl in Hloop, Hh.
  destruct (argmax_total votes) as [c Hc]; [destruct Hh as [-> _]; lia|].
  exists idxs, votes, c. repeat split; try done; try apply Hh.
  unfold _predict_emotion. rewrite (array_uniform p emotion m Hn Hall). simpl.
  rewrite Hloop. simpl. by rewrite Hc.
Qed.

(** ** The aggregation as a whole *)

Lemma Qltb_proper (x x' y y' : Q) :
  x == x' -> y == y' -> Np.Qltb x y = Np.Qltb x' y'.
Proof. intros Hx Hy. unfold Np.Qltb. by rewrite Hx, Hy. Qed.

Lemma clamp_proper (x x' lo hi : Q) :
  x == x' -> clamp x lo hi == clamp x' lo hi.
Proof.
  intros Hx. unfold clamp.
  rewrite (Qltb_proper x x' lo lo Hx (Qeq_refl lo)).
  rewrite (Qltb_proper hi hi x x' (Qeq_refl hi) Hx).
  destruct (Np.Qltb x' lo); [reflexivity|].
  destruct (Np.Qltb hi x'); [reflexivity|done].
Qed.

(** Line 220 on one arousal value is the spec's renormalisation. *)
Lemma renorm_clamp (a : Q) :
  Np.clip ((a + 1) / 2.0) 0 1 == clamp ((a + 1) / 2) 0 1.
Proof.
  rewrite clip_clamp by done. apply clamp_proper.
  unfold Qdiv. apply Qmult_comp; [reflexivity|]. reflexivity.
Qed.

Lemma sum_proper (l l' : list Q) : Forall2 Qeq l l' -> Np.sum l == Np.sum l'.
Proof.
  induction 1 as [|x y l l' Hxy _ IH]; simpl; [reflexivity|].
  by rewrite Hxy, IH.
Qed.

Lemma aggregate_ok (p : Np.ragged_policy) (get_class : nat -> string)
    (n m : nat) (emotion affect : list (list Q)) :
  (1 <= n)%nat -> (1 <= m)%nat -> ensemble_output n m emotion affect ->
  exists idxs votes consensus,
    vote_loop get_class ([], Np.zeros m) emotion = Ok (map get_class idxs, votes)
    /\ Forall2 (fun e k => Np.argmax e = Ok k) emotion idxs
    /\ histogram_of m votes idxs
    /\ Np.argmax votes = Ok consensus
    /\ aggregate p get_class emotion affect
       = Ok (map get_class idxs ++ [get_class consensus],
             map renorm_row affect
             ++ [[Np.sum (map (fun r => nth 0 r 0) (map renorm_row affect))
                  / inject_Z (Z.of_nat (length affect));
                  Np.sum (map (fun r => nth 1 r 0) (map renorm_row affect))
                  / inject_Z (Z.of_nat (length affect))]]).
Proof.
  intros Hn Hm (Hle & Hla & He & Ha).
  destruct (_predict_emotion_ok p get_class emotion m)
    as (idxs & votes & c & Hloop & Hidx & Hh & Hc & Hemo); [lia|done|done|].
  exists idxs, votes, c. repeat split; try done; try apply Hh.
  unfold aggregate.
  rewrite (_predict_affect_ok p affect 2) by (done || lia).
  simpl. by rewrite Hemo.
Qed.

(** ** Lengths of whatever the aggregation returns *)

Lemma vote_loop_length (get_class : nat -> string) (rows : list (list Q)) :
  forall acc acc',
    vote_loop get_class acc rows = Ok acc' ->
    length acc'.1 = (length acc.1 + length rows)%nat.
Proof.
  induction rows as [|e rows IH]; intros acc acc'; simpl.
  - intros [= <-]. lia.
  - unfold vote_step.
    destruct (Np.argmax e) as [k|]; simpl; [|discriminate].
    destruct (Np.incr_at acc.2 k) as [v|]; simpl; [|discriminate].
    intros Hloop. apply IH in Hloop. simpl in Hloop.
    rewrite length_app in Hloop. simpl in Hloop. lia.
Qed.

Lemma array_Ok_inv (p : Np.ragged_policy) (l : list (list Q)) (a : Np.ndarray) :
  Np.array p l = Ok a ->
  (exists m, a = Np.Arr2 l m /\ (0 < length l)%nat) \/ (exists items, a = Np.Arr1 items).
Proof.
  destruct l as [|r rs]; simpl.
  - intros [= <-]. right. eauto.
  - destruct (Np.uniform (length r) rs).
    + intros [= <-]. left. eexists. split; [done|lia].
    + destruct p; [|discriminate]. intros [= <-]. right. eauto.
Qed.

Lemma _predict_emotion_length (p : Np.ragged_policy) (get_class : nat -> string)
    (emotion : list (list Q)) (labels : list string) :
  _predict_emotion p get_class emotion = Ok labels ->
  length labels = S (length emotion).
Proof.
  unfold _predict_emotion.
  destruct (Np.array p emotion) as [a|] eqn:Ha; simpl; [|discriminate].
  apply array_Ok_inv in Ha as [(m & -> & _)|(items & ->)]; simpl; [|discriminate].
  destruct (vote_loop get_class ([], Np.zeros m) emotion) as [acc|] eqn:Hloop;
    simpl; [|discriminate].
  destruct (Np.argmax acc.2) as [c|]; simpl; [|discriminate].
  intros [= <-]. apply vote_loop_length in Hloop. simpl in Hloop.
  rewrite length_app. simpl. lia.
Qed.

Lemma _predict_affect_length (p : Np.ragged_policy) (affect out : list (list Q)) :
  _predict_affect p affect = Ok out -> length out = S (length affect).
Proof.
  unfold _predict_affect.
  destruct (Np.array p affect) as [a|] eqn:Ha; simpl; [|discriminate].
  apply array_Ok_inv in Ha as [(m & -> & _)|(items & ->)]; simpl; [|discriminate].
  destruct (1 <? m)%nat; simpl; [|discriminate].
  rewrite length_map, length_seq, Nat.eqb_refl. simpl.
  intros [= <-]. rewrite length_app, length_zip_with, !length_map. simpl. lia.
Qed.

Lemma _predict_affect_errors (p : Np.ragged_policy) (affect : list (list Q)) (e : exn) :
  _predict_affect p affect = Err e -> e = IndexError \/ e = ValueError.
Proof.
  unfold _predict_affect.
  destruct (Np.array p affect) as [a|e0] eqn:Ha; simpl.
  - apply array_Ok_inv in Ha as [(m & -> & _)|(items & ->)]; simpl.
    + destruct (1 <? m)%nat; simpl; [|intros [= <-]; by left].
      rewrite length_map, length_seq, Nat.eqb_refl. simpl. discriminate.
    + intros [= <-]. by left.
  - intros [= <-]. destruct affect as [|r rs]; simpl in Ha; [discriminate|].
    destruct (Np.uniform (length r) rs); [discriminate|].
    destruct p; [discriminate|]. injection Ha as <-. by right.
Qed.

(** ** Branches that disagree on the number of classes *)

Lemma array_ragged (p : Np.ragged_policy) (l : list (list Q)) (e1 e2 : list Q) :
  e1 ∈ l -> e2 ∈ l -> length e1 <> length e2 ->
  Np.array p l = match p with
                 | Np.RaggedObjectArray => Ok (Np.Arr1 l)
                 | Np.RaggedValueError => Err ValueError
                 end.
Proof.
  intros H1 H2 Hne. destruct l as [|r rs]; [by apply elem_of_nil in H1|].
  simpl. destruct (Np.uniform (length r) rs) eqn:Hu; [|done].
  exfalso. apply uniform_Forall in Hu.
  assert (Hall : Forall (fun x => length x = length r) (r :: rs))
    by by constructor.
  rewrite Forall_forall in Hall.
  apply Hne. by rewrite (Hall _ H1), (Hall _ H2).
Qed.

Lemma _predict_emotion_ragged (p : Np.ragged_policy) (get_class : nat -> string)
    (emotion : list (list Q)) (e1 e2 : list Q) :
  e1 ∈ emotion -> e2 ∈ emotion -> length e1 <> length e2 ->
  _predict_emotion p get_class emotion
  = Err match p with
        | Np.RaggedObjectArray => IndexError
        | Np.RaggedValueError => ValueError
        end.
Proof.
  intros H1 H2 Hne. unfold _predict_emotion.
  rewrite (array_ragged p emotion e1 e2 H1 H2 Hne). by destruct p.
Qed.

(** ** Running [_predict] with a cached or loadable network *)

Section PredictRun.

Context {E : Externals}.

Lemma _predict_run (w : world) (d : device) (net : ensemble) (input_face : tensor) :
  esr_ready w d net ->
  exists w',
    _predict input_face d w
    = (aggregate numpy get_class (ensemble_run net input_face).1
         (ensemble_run net input_face).2, w')
    /\ _ESR_9 w' = Some net.
Proof.
  intros [Hc|[Hn Hl]]; unfold _predict, mbind, M_bind, get_esr; simpl.
  - rewrite Hc. simpl. destruct (ensemble_run net input_face) as [em af].
    eexists. split; reflexivity || done.
  - rewrite Hn. unfold lift. simpl. rewrite Hl. simpl.
    destruct (ensemble_run net input_face) as [em af].
    eexists. split; reflexivity || done.
Qed.

End PredictRun.

(** ** From the histogram to the majority *)

Lemma histogram_first_max_majority (m : nat) (votes : list Q) (idxs : list nat)
    (c : nat) :
  histogram_of m votes idxs -> first_max votes c -> majority m idxs c.
Proof.
  intros [Hlen Hv] Hfm.
  assert (Hc : (c < m)%nat) by (rewrite <- Hlen; by apply first_max_lt_length).
  destruct Hfm as (x & Hx & Hle & Hlt).
  rewrite (Hv c Hc) in Hx. injection Hx as <-.
  split; [done|]. split.
  - intros c' Hc'. specialize (Hle c' _ (Hv c' Hc')).
    rewrite <- Zle_Qle in Hle. lia.
  - intros c' Hc'. specialize (Hlt c' _ Hc' (Hv c' ltac:(lia))).
    rewrite <- Zlt_Qlt in Hlt. lia.
Qed.

Lemma majority_unique (m : nat) (idxs : list nat) (c c' : nat) :
  majority m idxs c -> majority m idxs c' -> c = c'.
Proof.
  intros (Hc & Hle & Hlt) (Hc' & Hle' & Hlt').
  destruct (Nat.lt_trichotomy c c') as [H|[H|H]]; [|done|].
  - specialize (Hlt' _ H). specialize (Hle _ Hc'). lia.
  - specialize (Hlt _ H). specialize (Hle' _ Hc). lia.
Qed.

Lemma majority_1_1_2 (m c : nat) :
  (1 < m)%nat -> majority m [1; 1; 2]%nat c -> c = 1%nat.
Proof.
  intros Hm (_ & Hle & _). specialize (Hle 1%nat Hm).
  destruct c as [|[|[|c]]]; simpl in Hle; [lia|done|lia|lia].
Qed.

Lemma majority_tie_0_1 (m c : nat) : majority m [0; 1]%nat c -> c = 0%nat.
Proof.
  intros (_ & _ & Hlt). destruct c as [|c]; [done|].
  specialize (Hlt 0%nat ltac:(lia)).
  destruct c as [|c]; simpl in Hlt; lia.
Qed.

(** ** The rows of the affect block *)

Lemma renorm_row_pair (v a : Q) :
  renorm_row [v; a] = [v; Np.clip ((a + 1) / 2.0) 0 1].
Proof. reflexivity. Qed.

Lemma valence_renorm (affect : list (list Q)) :
  Forall (fun r => length r = 2%nat) affect ->
  map (fun r => nth 0 r 0) (map renorm_row affect) = map valence affect.
Proof.
  induction 1 as [|r rows Hr _ IH]; simpl; [done|]. rewrite IH. f_equal.
  destruct r as [|v [|a [|]]]; simpl in Hr; try lia. reflexivity.
Qed.

Lemma arousal_renorm (affect : list (list Q)) :
  Forall (fun r => length r = 2%nat) affect ->
  Forall2 Qeq (map (fun r => nth 1 r 0) (map renorm_row affect))
    (map (fun r => clamp ((arousal r + 1) / 2) 0 1) affect).
Proof.
  induction 1 as [|r rows Hr _ IH]; simpl; constructor; [|done].
  destruct r as [|v [|a [|]]]; simpl in Hr; try lia. apply renorm_clamp.
Qed.

(** * The aggregator *)

(** C1. For every non-empty ensemble output ([n >= 1] branches over [m >= 1]
    classes) [_predict] returns; the label of branch [i] is the label of the
    first maximal entry of its emotion-score vector; the vote histogram built
    by the loop holds, for every class, the number of branches whose best
    class it is; the label appended last is the label of the first maximal
    entry of the histogram, that is of the class with the most votes, the
    lowest index on a tie. For best classes [1, 1, 2] the consensus is class
    1, for [0, 1] it is class 0. *)
Theorem C1_majority_vote `{E : Externals} (w : world) (d : device)
    (net : ensemble) (input_face : tensor) (n m : nat)
    (emotion affect : list (list Q)) :
  esr_ready w d net ->
  ensemble_run net input_face = (emotion, affect) ->
  (1 <= n)%nat -> (1 <= m)%nat ->
  ensemble_output n m emotion affect ->
  exists idxs votes consensus to_return_affect w',
    _predict input_face d w
    = (Ok (map get_class idxs ++ [get_class consensus], to_return_affect), w')
    /\ Forall2 first_max emotion idxs
    /\ vote_loop get_class ([], Np.zeros m) emotion
       = Ok (map get_class idxs, votes)
    /\ histogram_of m votes idxs
    /\ first_max votes consensus
    /\ majority m idxs consensus
    /\ (idxs = [1; 1; 2]%nat -> consensus = 1%nat)
    /\ (idxs = [0; 1]%nat -> consensus = 0%nat).
Proof.
  intros Hready Hrun Hn Hm Hwf.
  destruct (_predict_run w d net input_face Hready) as (w' & Hp & _).
  rewrite Hrun in Hp. simpl in Hp.
  destruct (aggregate_ok numpy get_class n m emotion affect Hn Hm Hwf)
    as (idxs & votes & c & Hloop & Hidx & Hh & Hc & Hagg).
  rewrite Hagg in Hp.
  assert (Hfm : Forall2 first_max emotion idxs).
  { eapply Forall2_impl; [exact Hidx|]. intros e k. apply argmax_first_max. }
  assert (Hmaj : majority m idxs c).
  { eapply histogram_first_max_majority; [exact Hh|]. by apply argmax_first_max. }
  exists idxs, votes, c. eexists. exists w'.
  split; [exact Hp|]. split; [exact Hfm|]. split; [exact Hloop|].
  split; [exact Hh|]. split; [by apply argmax_first_max|].
  split; [exact Hmaj|]. split.
  - intros ->. apply (majority_1_1_2 m); [|done].
    destruct Hwf as (_ & _ & He & _).
    inversion Hfm as [|e1 k1 es ks Hf1 _]; subst.
    apply first_max_lt_length in Hf1.
    inversion He; subst. lia.
  - intros ->. by apply (majority_tie_0_1 m).
Qed.

Lemma C1_majority_vote_witness :
  esr_ready (E := Demo.externals) Demo.fresh cpu tt
  /\ ensemble_output 3 3 Outputs.emotion_1_1_2 Outputs.affect_3
  /\ exists idxs consensus to_return_affect w',
       _predict (E := Demo.externals)
         (Outputs.emotion_1_1_2, Outputs.affect_3) cpu Demo.fresh
       = (Ok (map Demo.affectnet_class idxs ++ [Demo.affectnet_class consensus],
              to_return_affect), w')
       /\ majority 3 idxs consensus.
Proof.
  assert (Hr : esr_ready (E := Demo.externals) Demo.fresh cpu tt)
    by (right; split; reflexivity).
  assert (Hwf : ensemble_output 3 3 Outputs.emotion_1_1_2 Outputs.affect_3)
    by (repeat split; repeat constructor).
  split; [exact Hr|]. split; [exact Hwf|].
  destruct (C1_majority_vote (E := Demo.externals) Demo.fresh cpu tt
              (Outputs.emotion_1_1_2, Outputs.affect_3) 3 3
              Outputs.emotion_1_1_2 Outputs.affect_3 Hr eq_refl
              ltac:(lia) ltac:(lia) Hwf)
    as (idxs & votes & c & aff & w' & Hp & _ & _ & _ & _ & Hmaj & _).
  exists idxs, c, aff, w'. split; [exact Hp|exact Hmaj].
Defined.

(** The labels [_predict] returns on the concrete outputs. *)
Example labels_1_1_2 :
  fst <$> (_predict (E := Demo.externals)
             (Outputs.emotion_1_1_2, Outputs.affect_3) cpu Demo.fresh).1
  = Ok ["Happy"; "Happy"; "Sad"; "Happy"]%string.
Proof. vm_compute. reflexivity. Qed.

Example labels_tie_0_1 :
  fst <$> (_predict (E := Demo.externals)
             (Outputs.emotion_0_1, Outputs.affect_2) cpu Demo.fresh).1
  = Ok ["Neutral"; "Happy"; "Neutral"]%string.
Proof. vm_compute. reflexivity. Qed.

(** C2. For every non-empty ensemble output [_predict] returns; the affect
    row of branch [i] keeps the branch's valence as it is and carries the
    arousal [clamp((arousal + 1) / 2, 0, 1)]; the row appended after the last
    branch holds the arithmetic means, over all branches, of the valences and
    of the renormalised arousals. For the inputs [(0.2, -1.0)] and
    [(0.8, 1.0)] the rows are [(0.2, 0)], [(0.8, 1)] and the consensus
    [(0.5, 0.5)]. *)
Theorem C2_affect_consensus `{E : Externals} (w : world) (d : device)
    (net : ensemble) (input_face : tensor) (n m : nat)
    (emotion affect : list (list Q)) :
  esr_ready w d net ->
  ensemble_run net input_face = (emotion, affect) ->
  (1 <= n)%nat -> (1 <= m)%nat ->
  ensemble_output n m emotion affect ->
  exists to_return_emotion to_return_affect w',
    _predict input_face d w = (Ok (to_return_emotion, to_return_affect), w')
    /\ length to_return_affect = S n
    /\ (forall i v a, affect !! i = Some [v; a] ->
          exists a', to_return_affect !! i = Some [v; a']
                     /\ a' == clamp ((a + 1) / 2) 0 1)
    /\ (exists mv ma, to_return_affect !! n = Some [mv; ma]
          /\ mv == mean (map valence affect)
          /\ ma == mean (map (fun r => clamp ((arousal r + 1) / 2) 0 1) affect))
    /\ (affect = [[0.2; -1.0]; [0.8; 1.0]] ->
          rows_eq to_return_affect [[0.2; 0]; [0.8; 1]; [0.5; 0.5]]).
Proof.
  intros Hready Hrun Hn Hm Hwf.
  destruct (_predict_run w d net input_face Hready) as (w' & Hp & _).
  rewrite Hrun in Hp. simpl in Hp.
  destruct (aggregate_ok numpy get_class n m emotion affect Hn Hm Hwf)
    as (idxs & votes & c & _ & _ & _ & _ & Hagg).
  rewrite Hagg in Hp. clear Hagg.
  destruct Hwf as (_ & <- & _ & Ha).
  do 2 eexists. exists w'. split; [exact Hp|]. split; [|split; [|split]].
  - rewrite length_app, length_map. simpl. lia.
  - intros i v a Hi. eexists. split.
    + rewrite lookup_app_l
        by (rewrite length_map; eapply lookup_lt_Some; eauto).
      rewrite list_lookup_fmap, Hi. simpl. by rewrite renorm_row_pair.
    + apply renorm_clamp.
  - do 2 eexists. split; [|split].
    + rewrite lookup_app_r by (rewrite length_map; lia).
      rewrite length_map, Nat.sub_diag. reflexivity.
    + rewrite valence_renorm by done. unfold mean. rewrite length_map.
      reflexivity.
    + unfold mean. rewrite length_map.
      rewrite (sum_proper _ _ (arousal_renorm affect Ha)). reflexivity.
  - intros ->. repeat constructor; vm_compute; reflexivity.
Qed.

Lemma C2_affect_consensus_witness :
  esr_ready (E := Demo.externals) Demo.fresh cpu tt
  /\ ensemble_output 2 2 Outputs.emotion_0_1 Outputs.affect_2
  /\ exists to_return_emotion to_return_affect w',
       _predict (E := Demo.externals)
         (Outputs.emotion_0_1, Outputs.affect_2) cpu Demo.fresh
       = (Ok (to_return_emotion, to_return_affect), w')
       /\ rows_eq to_return_affect [[0.2; 0]; [0.8; 1]; [0.5; 0.5]].
Proof.
  assert (Hr : esr_ready (E := Demo.externals) Demo.fresh cpu tt)
    by (right; split; reflexivity).
  assert (Hwf : ensemble_output 2 2 Outputs.emotion_0_1 Outputs.affect_2)
    by (repeat split; repeat constructor).
  split; [exact Hr|]. split; [exact Hwf|].
  destruct (C2_affect_consensus (E := Demo.externals) Demo.fresh cpu tt
              (Outputs.emotion_0_1, Outputs.affect_2) 2 2
              Outputs.emotion_0_1 Outputs.affect_2 Hr eq_refl
              ltac:(lia) ltac:(lia) Hwf)
    as (em & aff & w' & Hp & _ & _ & _ & Hex).
  exists em, aff, w'. split; [exact Hp|exact (Hex eq_refl)].
Defined.

Lemma _predict_affect_nonempty (p : Np.ragged_policy) (affect out : list (list Q)) :
  _predict_affect p affect = Ok out -> (1 <= length affect)%nat.
Proof.
  unfold _predict_affect.
  destruct (Np.array p affect) as [a|] eqn:Ha; simpl; [|discriminate].
  apply array_Ok_inv in Ha as [(m & -> & Hlen)|(items & ->)]; simpl;
    [intros _; lia|discriminate].
Qed.

(** C3, as the code has it. Invalid ensemble input makes [_predict] raise
    instead of returning a result, with numpy's own exceptions: on an
    ensemble output with zero branches it raises [IndexError]; when two
    branches report different numbers of emotion classes it raises
    [IndexError] or [ValueError]. The exception is never
    [InvalidEnsembleInput], a class the code does not define. *)
Theorem C3_invalid_input_raises `{E : Externals} (w : world) (d : device)
    (net : ensemble) (input_face : tensor) (emotion affect : list (list Q)) :
  esr_ready w d net ->
  ensemble_run net input_face = (emotion, affect) ->
  (emotion = [] /\ affect = [])
  \/ (exists e1 e2, e1 ∈ emotion /\ e2 ∈ emotion /\ length e1 <> length e2) ->
  exists e w',
    _predict input_face d w = (Err e, w')
    /\ (e = IndexError \/ e = ValueError)
    /\ e <> Raise "InvalidEnsembleInput"
    /\ (emotion = [] /\ affect = [] -> e = IndexError).
Proof.
  intros Hready Hrun Hbad.
  destruct (_predict_run w d net input_face Hready) as (w' & Hp & _).
  rewrite Hrun in Hp. simpl in Hp.
  assert (Hagg : exists e, aggregate numpy get_class emotion affect = Err e
                   /\ (e = IndexError \/ e = ValueError)
                   /\ (emotion = [] /\ affect = [] -> e = IndexError)).
  { destruct Hbad as [[-> ->]|(e1 & e2 & H1 & H2 & Hne)].
    - exists IndexError. split; [reflexivity|]. split; [by left|done].
    - unfold aggregate.
      destruct (_predict_affect numpy affect) as [out|e] eqn:Haff; simpl.
      + rewrite (_predict_emotion_ragged numpy get_class emotion e1 e2 H1 H2 Hne).
        simpl. eexists. split; [reflexivity|]. split.
        * destruct numpy; [by left|by right].
        * intros [-> _]. by apply elem_of_nil in H1.
      + exists e. split; [reflexivity|]. split.
        * by apply (_predict_affect_errors numpy affect).
        * intros [-> _]. by apply elem_of_nil in H1. }
  destruct Hagg as (e & Hagg & He & Hzero). rewrite Hagg in Hp.
  exists e, w'. split; [exact Hp|]. split; [exact He|]. split; [|exact Hzero].
  destruct He as [->| ->]; discriminate.
Qed.

Lemma C3_invalid_input_raises_witness :
  esr_ready (E := Demo.externals) Demo.fresh cpu tt
  /\ exists e w',
       _predict (E := Demo.externals)
         (Outputs.emotion_ragged, Outputs.affect_2) cpu Demo.fresh = (Err e, w')
       /\ (e = IndexError \/ e = ValueError).
Proof.
  assert (Hr : esr_ready (E := Demo.externals) Demo.fresh cpu tt)
    by (right; split; reflexivity).
  split; [exact Hr|].
  destruct (C3_invalid_input_raises (E := Demo.externals) Demo.fresh cpu tt
              (Outputs.emotion_ragged, Outputs.affect_2)
              Outputs.emotion_ragged Outputs.affect_2 Hr eq_refl)
    as (e & w' & Hp & He & _).
  - right. exists [0.1; 0.7; 0.2], [0.9; 0.1]. split; [|split].
    + apply list_elem_of_here.
    + apply list_elem_of_further, list_elem_of_here.
    + simpl. lia.
  - exists e, w'. split; [exact Hp|exact He].
Defined.

(** C3, as the claim states it, fails: on zero branches and on branches with
    three and two classes [_predict] raises [IndexError], not
    [InvalidEnsembleInput]. *)
Lemma C3_not_InvalidEnsembleInput :
  (_predict (E := Demo.externals) ([], []) cpu Demo.fresh).1 = Err IndexError
  /\ (_predict (E := Demo.externals) ([], []) cpu Demo.fresh).1
     <> Err (Raise "InvalidEnsembleInput")
  /\ (_predict (E := Demo.externals)
        (Outputs.emotion_ragged, Outputs.affect_2) cpu Demo.fresh).1
     = Err IndexError
  /\ (_predict (E := Demo.externals)
        (Outputs.emotion_ragged, Outputs.affect_2) cpu Demo.fresh).1
     <> Err (Raise "InvalidEnsembleInput").
Proof.
  assert (H0 : (_predict (E := Demo.externals) ([], []) cpu Demo.fresh).1
               = Err IndexError) by (vm_compute; reflexivity).
  assert (H1 : (_predict (E := Demo.externals)
                  (Outputs.emotion_ragged, Outputs.affect_2) cpu Demo.fresh).1
               = Err IndexError) by (vm_compute; reflexivity).
  split; [exact H0|]. split; [rewrite H0; discriminate|].
  split; [exact H1|]. rewrite H1. discriminate.
Qed.

(** C4. Whenever [_predict] returns on an ensemble output of [n] branches,
    the list of labels and the list of affect vectors both have length
    [n + 1] (and [n >= 1]: on zero branches it does not return). *)
Theorem C4_lengths `{E : Externals} (w w' : world) (d : device)
    (net : ensemble) (input_face : tensor) (n : nat)
    (emotion affect : list (list Q))
    (emotion_labels : list string) (affect_vectors : list (list Q)) :
  esr_ready w d net ->
  ensemble_run net input_face = (emotion, affect) ->
  length emotion = n -> length affect = n ->
  _predict input_face d w = (Ok (emotion_labels, affect_vectors), w') ->
  length emotion_labels = S n /\ length affect_vectors = S n /\ (1 <= n)%nat.
Proof.
  intros Hready Hrun Hle Hla Hres.
  destruct (_predict_run w d net input_face Hready) as (w1 & Hp & _).
  rewrite Hrun in Hp. simpl in Hp. rewrite Hp in Hres.
  injection Hres as Hagg _. unfold aggregate in Hagg.
  destruct (_predict_affect numpy affect) as [out|] eqn:Haff;
    simpl in Hagg; [|discriminate].
  destruct (_predict_emotion numpy get_class emotion) as [labels|] eqn:Hemo;
    simpl in Hagg; [|discriminate].
  injection Hagg as <- <-.
  apply _predict_emotion_length in Hemo.
  pose proof (_predict_affect_nonempty _ _ _ Haff) as Hne.
  apply _predict_affect_length in Haff. lia.
Qed.

Lemma C4_lengths_witness :
  exists emotion_labels affect_vectors w',
    _predict (E := Demo.externals)
      (Outputs.emotion_0_1, Outputs.affect_2) cpu Demo.fresh
    = (Ok (emotion_labels, affect_vectors), w')
    /\ length emotion_labels = 3%nat /\ length affect_vectors = 3%nat.
Proof.
  do 3 eexists. split; [vm_compute; reflexivity|].
  assert (Hr : esr_ready (E := Demo.externals) Demo.fresh cpu tt)
    by (right; split; reflexivity).
  destruct (C4_lengths (E := Demo.externals) Demo.fresh _ cpu tt
              (Outputs.emotion_0_1, Outputs.affect_2) 2
              Outputs.emotion_0_1 Outputs.affect_2 _ _
              Hr eq_refl eq_refl eq_refl eq_refl) as (H1 & H2 & _).
  split; [exact H1|exact H2].
Defined.

(** * The detector adapter *)

Section DetectorRuns.

Context {E : Externals}.

Lemma detector_step_trans (w w1 w2 : world) (l1 l2 : list image) :
  detector_step w w1 l1 -> detector_step w1 w2 l2 ->
  detector_step w w2 (l1 ++ l2).
Proof.
  intros [H1 [Ha1 Hb1]] [H2 [Ha2 Hb2]]. split; [|split].
  - by rewrite H2, H1, app_assoc.
  - by rewrite Ha2.
  - by rewrite Hb2.
Qed.

Lemma _dlib_face_detection_run (w : world) (det : cnn_detector) (img : image) :
  dlib_ready w det ->
  exists w',
    _dlib_face_detection img w = (Ok (rect_boxes (cnn_run det img)), w')
    /\ dlib_ready w' det
    /\ detector_step w w' [img].
Proof.
  intros [Hc|[Hn Hl]];
    unfold _dlib_face_detection, mbind, M_bind, get_dlib; simpl.
  - rewrite Hc. simpl. eexists. split; [reflexivity|]. split; [by left|].
    unfold detector_step, ensemble_untouched, detector_runs. simpl.
    rewrite !flat_map_app. simpl. by rewrite !app_nil_r.
  - rewrite Hn. unfold lift. simpl. rewrite Hl. simpl.
    eexists. split; [reflexivity|]. split; [by left|].
    unfold detector_step, ensemble_untouched, detector_runs. simpl.
    rewrite !flat_map_app. simpl. by rewrite !app_nil_r.
Qed.

Lemma _haar_cascade_face_detection_run (w : world) (c : cascade) (img : image)
    (scale_factor : Q) (neighbors : Z) (min_size : Z * Z) :
  haar_ready w c ->
  exists w',
    _haar_cascade_face_detection img scale_factor neighbors min_size w
    = (Ok (haar_boxes (detectMultiScale c img scale_factor neighbors min_size)),
       w')
    /\ haar_ready w' c
    /\ detector_step w w' [img].
Proof.
  intros [Hc|[Hn Hl]];
    unfold _haar_cascade_face_detection, mbind, M_bind, get_haar; simpl.
  - rewrite Hc. simpl. eexists. split; [reflexivity|]. split; [by left|].
    unfold detector_step, ensemble_untouched, detector_runs. simpl.
    rewrite !flat_map_app. simpl. by rewrite !app_nil_r.
  - rewrite Hn. unfold lift. simpl. rewrite Hl. simpl.
    eexists. split; [reflexivity|]. split; [by left|].
    unfold detector_step, ensemble_untouched, detector_runs. simpl.
    rewrite !flat_map_app. simpl. by rewrite !app_nil_r.
Qed.

(** The loop over the scale factors stops at the first scale at which the
    detector reports a face. *)
Lemma dlib_scale_loop_run (det : cnn_detector) (grey : image) (scales : list Q) :
  forall w, dlib_ready w det ->
  exists w',
    dlib_scale_loop grey scales [] w = (Ok (first_hit det grey scales), w')
    /\ dlib_ready w' det
    /\ detector_step w w' (map (resize_f grey) (tried det grey scales)).
Proof.
  induction scales as [|s rest IH]; intros w Hready; simpl.
  - exists w. split; [reflexivity|]. split; [done|].
    unfold detector_step, ensemble_untouched. by rewrite app_nil_r.
  - destruct (_dlib_face_detection_run w det (resize_f grey s) Hready)
      as (w1 & Hrun & Hready1 & Hstep1).
    unfold mbind, M_bind. rewrite Hrun. fold (faces_at det grey s).
    destruct (0 <? length (faces_at det grey s))%nat eqn:Hhit.
    + exists w1. split; [reflexivity|]. by split.
    + destruct (IH w1 Hready1) as (w2 & Hloop & Hready2 & Hstep2).
      assert (Hnil : faces_at det grey s = []).
      { apply Nat.ltb_ge in Hhit. destruct (faces_at det grey s); [done|].
        simpl in Hhit. lia. }
      rewrite Hnil. exists w2. split; [exact Hloop|]. split; [done|].
      apply (detector_step_trans w w1 w2 [resize_f grey s] _ Hstep1 Hstep2).
Qed.

Lemma detect_face_coordinates_run (w : world) (det : cnn_detector) (c : cascade)
    (img : image) (face_detection_method : Z) :
  backend_ready w face_detection_method det c ->
  exists w',
    detect_face_coordinates img face_detection_method w
    = (Ok (candidates det c img face_detection_method), w')
    /\ detector_step w w' (images_tried det img face_detection_method).
Proof.
  unfold backend_ready, detect_face_coordinates, candidates, images_tried.
  destruct (face_detection_method =? _ID_FACE_DETECTOR_HAAR_CASCADE)%Z.
  - intros Hready.
    destruct (_haar_cascade_face_detection_run w c (convert_bgr_to_grey img)
                _HAAR_SCALE_FACTOR _HAAR_NEIGHBORS _HAAR_MIN_SIZE Hready)
      as (w' & Hrun & _ & Hstep). eauto.
  - intros Hready.
    destruct (face_detection_method =? _ID_FACE_DETECTOR_DLIB)%Z.
    + destruct (dlib_scale_loop_run det (convert_bgr_to_grey img)
                  (scale_factors_for (convert_bgr_to_grey img)) w Hready)
        as (w' & Hrun & _ & Hstep). eauto.
    + destruct (_dlib_face_detection_run w det (convert_bgr_to_grey img) Hready)
        as (w' & Hrun & _ & Hstep). eauto.
Qed.

Lemma detect_face_run (w : world) (det : cnn_detector) (c : cascade)
    (img : image) (face_detection_method : Z) :
  backend_ready w face_detection_method det c ->
  exists w',
    detect_face img face_detection_method w
    = (Ok (first_positive (candidates det c img face_detection_method)), w')
    /\ detector_step w w' (images_tried det img face_detection_method).
Proof.
  intros Hready.
  destruct (detect_face_coordinates_run w det c img face_detection_method Hready)
    as (w' & Hrun & Hstep).
  exists w'. split; [|done]. unfold detect_face, mbind, M_bind. by rewrite Hrun.
Qed.

End DetectorRuns.

(** ** Rescaling the boxes found on a down-sampled image *)

Lemma astype_int_scaled (q : Q) (k c : Z) :
  Qnum q = (k * Z.pos (Qden q))%Z -> astype_int (q * inject_Z c) = (k * c)%Z.
Proof.
  intros Hq. unfold astype_int. simpl. rewrite Pos.mul_1_r, Hq.
  replace (k * Z.pos (Qden q) * c)%Z with (k * c * Z.pos (Qden q))%Z by lia.
  by apply Z.quot_mul.
Qed.

Lemma rescale_box_times (s : Q) (k : Z) (b : box) :
  Qnum (1 / s) = (k * Z.pos (Qden (1 / s)))%Z ->
  rescale_box s b = box_times k b.
Proof.
  intros Hk. unfold rescale_box, box_times.
  by rewrite !(astype_int_scaled (1 / s) k _ Hk).
Qed.

Lemma map_rescale_times (s : Q) (k : Z) (l : list box) :
  Qnum (1 / s) = (k * Z.pos (Qden (1 / s)))%Z ->
  map (rescale_box s) l = map (box_times k) l.
Proof. intros Hk. apply map_ext. intros b. by apply rescale_box_times. Qed.

Lemma length_pos_nonempty {A : Type} (l : list A) :
  (0 <? length l)%nat = true <-> l <> [].
Proof.
  destruct l; simpl; split; done.
Qed.

Section Multiscale.

Context {E : Externals}.

Lemma detect_face_dlib_run (w : world) (det : cnn_detector) (img : image) :
  dlib_ready w det ->
  exists w',
    detect_face img _ID_FACE_DETECTOR_DLIB w
    = (Ok (first_positive
             (first_hit det (convert_bgr_to_grey img)
                (scale_factors_for (convert_bgr_to_grey img)))), w')
    /\ detector_step w w'
         (map (resize_f (convert_bgr_to_grey img))
            (tried det (convert_bgr_to_grey img)
               (scale_factors_for (convert_bgr_to_grey img)))).
Proof.
  intros Hready.
  destruct (dlib_scale_loop_run det (convert_bgr_to_grey img)
              (scale_factors_for (convert_bgr_to_grey img)) w Hready)
    as (w' & Hrun & _ & Hstep).
  exists w'. split; [|done].
  unfold detect_face, detect_face_coordinates, mbind, M_bind. simpl.
  by rewrite Hrun.
Qed.

(** The three outcomes of the loop over two scale factors. *)
Lemma two_scales (w : world) (det : cnn_detector) (img : image)
    (s1 s2 : Q) (k1 k2 : Z) :
  dlib_ready w det ->
  scale_factors_for (convert_bgr_to_grey img) = [s1; s2] ->
  Qnum (1 / s1) = (k1 * Z.pos (Qden (1 / s1)))%Z ->
  Qnum (1 / s2) = (k2 * Z.pos (Qden (1 / s2)))%Z ->
  let grey := convert_bgr_to_grey img in
  (faces_at det grey s1 <> [] ->
     exists w',
       detect_face img _ID_FACE_DETECTOR_DLIB w
       = (Ok (first_positive (map (box_times k1) (faces_at det grey s1))), w')
       /\ detector_step w w' [resize_f grey s1])
  /\ (faces_at det grey s1 = [] -> faces_at det grey s2 <> [] ->
     exists w',
       detect_face img _ID_FACE_DETECTOR_DLIB w
       = (Ok (first_positive (map (box_times k2) (faces_at det grey s2))), w')
       /\ detector_step w w' [resize_f grey s1; resize_f grey s2])
  /\ (faces_at det grey s1 = [] -> faces_at det grey s2 = [] ->
     exists w',
       detect_face img _ID_FACE_DETECTOR_DLIB w = (Ok None, w')
       /\ detector_step w w' [resize_f grey s1; resize_f grey s2]).
Proof.
  intros Hready Hs Hk1 Hk2 grey. subst grey.
  destruct (detect_face_dlib_run w det img Hready) as (w' & Hrun & Hstep).
  rewrite Hs in Hrun, Hstep.
  simpl in Hrun, Hstep.
  split; [|split].
  - intros H1. apply length_pos_nonempty in H1. rewrite H1 in Hrun, Hstep.
    exists w'. split; [|exact Hstep].
    by rewrite Hrun, (map_rescale_times s1 k1 _ Hk1).
  - intros H1 H2. apply length_pos_nonempty in H2.
    rewrite H1 in Hrun, Hstep. simpl in Hrun, Hstep.
    rewrite H2 in Hrun, Hstep.
    exists w'. split; [|exact Hstep].
    by rewrite Hrun, (map_rescale_times s2 k2 _ Hk2).
  - intros H1 H2. rewrite H1 in Hrun, Hstep. simpl in Hrun, Hstep.
    rewrite H2 in Hrun, Hstep. simpl in Hrun, Hstep.
    exists w'. by split.
Qed.

End Multiscale.

(** C5. With the multiscale CNN backend the scale factors are [0.2, 0.5]
    when the greyscale image has more than 250,000 pixels and [0.5, 1.0]
    otherwise. The detector is run on the image resized by the first factor;
    if it reports a face, no other run is made and the boxes are those it
    reported with every coordinate multiplied by the integer [1 / scale];
    otherwise it is run once more at the second factor, with the same
    treatment of its boxes; if this run reports no face either,
    [detect_face] returns [None]. *)
Theorem C5_multiscale `{E : Externals} (w : world) (det : cnn_detector)
    (img : image) :
  dlib_ready w det ->
  let grey := convert_bgr_to_grey img in
  ((250000 < image_size grey)%Z -> scale_factors_for grey = [0.2; 0.5])
  /\ ((image_size grey <= 250000)%Z -> scale_factors_for grey = [0.5; 1.0])
  /\ exists s1 s2 k1 k2,
       scale_factors_for grey = [s1; s2]
       /\ inject_Z k1 == 1 / s1 /\ inject_Z k2 == 1 / s2
       /\ (faces_at det grey s1 <> [] ->
             exists w',
               detect_face img _ID_FACE_DETECTOR_DLIB w
               = (Ok (first_positive
                        (map (box_times k1) (faces_at det grey s1))), w')
               /\ detector_step w w' [resize_f grey s1])
       /\ (faces_at det grey s1 = [] -> faces_at det grey s2 <> [] ->
             exists w',
               detect_face img _ID_FACE_DETECTOR_DLIB w
               = (Ok (first_positive
                        (map (box_times k2) (faces_at det grey s2))), w')
               /\ detector_step w w' [resize_f grey s1; resize_f grey s2])
       /\ (faces_at det grey s1 = [] -> faces_at det grey s2 = [] ->
             exists w',
               detect_face img _ID_FACE_DETECTOR_DLIB w = (Ok None, w')
               /\ detector_step w w' [resize_f grey s1; resize_f grey s2]).
Proof.
  intros Hready grey.
  assert (Hlarge : (250000 < image_size grey)%Z ->
                   scale_factors_for grey = [0.2; 0.5]).
  { intros H. unfold scale_factors_for, _DLIB_SCALE_FACTOR_THRESHOLD.
    change (500 * 500)%Z with 250000%Z. apply Z.ltb_lt in H. by rewrite H. }
  assert (Hsmall : (image_size grey <= 250000)%Z ->
                   scale_factors_for grey = [0.5; 1.0]).
  { intros H. unfold scale_factors_for, _DLIB_SCALE_FACTOR_THRESHOLD.
    change (500 * 500)%Z with 250000%Z. apply Z.ltb_ge in H. by rewrite H. }
  split; [exact Hlarge|]. split; [exact Hsmall|].
  destruct (Z_lt_le_dec 250000 (image_size grey)) as [H|H].
  - exists 0.2, 0.5, 5%Z, 2%Z. split; [by apply Hlarge|].
    split; [reflexivity|]. split; [reflexivity|].
    apply (two_scales w det img 0.2 0.5 5 2 Hready (Hlarge H));
      reflexivity.
  - exists 0.5, 1.0, 2%Z, 1%Z. split; [by apply Hsmall|].
    split; [reflexivity|]. split; [reflexivity|].
    apply (two_scales w det img 0.5 1.0 2 1 Hready (Hsmall H));
      reflexivity.
Qed.

Lemma C5_multiscale_witness :
  dlib_ready (E := Demo.externals) Demo.fresh tt
  /\ exists w',
       detect_face (E := Demo.externals) Demo.large_image
         _ID_FACE_DETECTOR_DLIB Demo.fresh
       = (Ok (Some ((50, 100), (250, 300))%Z), w')
       /\ detector_runs (calls w')
          = [resize_f (Externals := Demo.externals) Demo.large_image 0.2].
Proof.
  assert (Hr : dlib_ready (E := Demo.externals) Demo.fresh tt)
    by (right; split; reflexivity).
  split; [exact Hr|].
  destruct (C5_multiscale (E := Demo.externals) Demo.fresh tt
              Demo.large_image Hr)
    as (Hlarge & _ & s1 & s2 & k1 & k2 & Hs & Hk1 & _ & Hfirst & _).
  rewrite (Hlarge ltac:(vm_compute; reflexivity)) in Hs.
  injection Hs as <- <-.
  destruct (Hfirst ltac:(vm_compute; discriminate)) as (w' & Hrun & Hstep & _).
  exists w'. split; [|exact Hstep].
  rewrite Hrun. do 2 f_equal.
  assert (Hk : k1 = 5%Z).
  { unfold Qeq in Hk1. simpl in Hk1. lia. }
  subst k1. vm_compute. reflexivity.
Defined.

(** * Selection of the returned box *)

(** C6, as the code has it. Whenever the selected backend reports one or
    more candidate boxes, [detect_face] looks at the first one only, in the
    order in which the backend reports them: it returns this box when the sum
    of its coordinates is strictly positive, and [None] when the sum is
    zero. *)
Theorem C6_first_box `{E : Externals} (w : world) (det : cnn_detector)
    (c : cascade) (img : image) (face_detection_method : Z)
    (b : box) (rest : list box) :
  backend_ready w face_detection_method det c ->
  candidates det c img face_detection_method = b :: rest ->
  exists w',
    detector_step w w' (images_tried det img face_detection_method)
    /\ ((0 < box_sum b)%Z ->
          detect_face img face_detection_method w = (Ok (Some b), w'))
    /\ (box_sum b = 0%Z ->
          detect_face img face_detection_method w = (Ok None, w')).
Proof.
  intros Hready Hcand.
  destruct (detect_face_run w det c img face_detection_method Hready)
    as (w' & Hrun & Hstep).
  rewrite Hcand in Hrun. simpl in Hrun.
  exists w'. split; [exact Hstep|]. split.
  - intros Hpos. apply Z.ltb_lt in Hpos. by rewrite Hpos in Hrun.
  - intros Hzero. rewrite Hzero in Hrun. exact Hrun.
Qed.

Lemma C6_first_box_witness :
  backend_ready (E := Demo.externals) Demo.fresh
    _ID_FACE_DETECTOR_HAAR_CASCADE tt tt
  /\ exists w',
       detect_face (E := Demo.externals) Demo.large_image
         _ID_FACE_DETECTOR_HAAR_CASCADE Demo.fresh
       = (Ok (Some ((10, 20), (50, 60))%Z), w').
Proof.
  assert (Hr : backend_ready (E := Demo.externals) Demo.fresh
                 _ID_FACE_DETECTOR_HAAR_CASCADE tt tt)
    by (right; split; reflexivity).
  split; [exact Hr|].
  destruct (C6_first_box (E := Demo.externals) Demo.fresh tt tt
              Demo.large_image _ID_FACE_DETECTOR_HAAR_CASCADE
              ((10, 20), (50, 60))%Z [] Hr eq_refl)
    as (w' & _ & Hpos & _).
  exists w'. apply Hpos. vm_compute. reflexivity.
Defined.

(** C6, as the claim states it, fails: the standard CNN backend reports two
    candidates, the first with coordinate sum -40, which is not zero, and
    [detect_face] returns [None] instead of the first box. *)
Lemma C6_first_box_not_returned :
  candidates (E := Demo.externals) tt tt Demo.outside_image
    _ID_FACE_DETECTOR_DLIB_STANDARD
  = [((-50, -50), (30, 30)); ((10, 20), (50, 60))]%Z
  /\ box_sum ((-50, -50), (30, 30))%Z <> 0%Z
  /\ (detect_face (E := Demo.externals) Demo.outside_image
        _ID_FACE_DETECTOR_DLIB_STANDARD Demo.fresh).1 = Ok None
  /\ (detect_face (E := Demo.externals) Demo.outside_image
        _ID_FACE_DETECTOR_DLIB_STANDARD Demo.fresh).1
     <> Ok (Some ((-50, -50), (30, 30))%Z).
Proof.
  assert (H : (detect_face (E := Demo.externals) Demo.outside_image
                 _ID_FACE_DETECTOR_DLIB_STANDARD Demo.fresh).1 = Ok None)
    by (vm_compute; reflexivity).
  split; [vm_compute; reflexivity|]. split; [vm_compute; discriminate|].
  split; [exact H|]. rewrite H. discriminate.
Qed.

(** C10. Whenever the first candidate box of the selected backend has a
    coordinate sum that is zero or negative, [detect_face] returns [None]:
    the test of line 84 asks for a strictly positive sum. *)
Theorem C10_nonpositive_sum `{E : Externals} (w : world) (det : cnn_detector)
    (c : cascade) (img : image) (face_detection_method : Z)
    (b : box) (rest : list box) :
  backend_ready w face_detection_method det c ->
  candidates det c img face_detection_method = b :: rest ->
  (box_sum b <= 0)%Z ->
  exists w', detect_face img face_detection_method w = (Ok None, w').
Proof.
  intros Hready Hcand Hsum.
  destruct (detect_face_run w det c img face_detection_method Hready)
    as (w' & Hrun & _).
  rewrite Hcand in Hrun. simpl in Hrun.
  apply Z.ltb_ge in Hsum. rewrite Hsum in Hrun. by exists w'.
Qed.

Lemma C10_nonpositive_sum_witness :
  backend_ready (E := Demo.externals) Demo.fresh
    _ID_FACE_DETECTOR_DLIB_STANDARD tt tt
  /\ (box_sum ((-50, -50), (30, 30)) <= 0)%Z
  /\ exists w',
       detect_face (E := Demo.externals) Demo.outside_image
         _ID_FACE_DETECTOR_DLIB_STANDARD Demo.fresh = (Ok None, w').
Proof.
  assert (Hr : backend_ready (E := Demo.externals) Demo.fresh
                 _ID_FACE_DETECTOR_DLIB_STANDARD tt tt)
    by (right; split; reflexivity).
  assert (Hs : (box_sum ((-50, -50), (30, 30)) <= 0)%Z)
    by (vm_compute; discriminate).
  split; [exact Hr|]. split; [exact Hs|].
  exact (C10_nonpositive_sum (E := Demo.externals) Demo.fresh tt tt
           Demo.outside_image _ID_FACE_DETECTOR_DLIB_STANDARD
           ((-50, -50), (30, 30))%Z [((10, 20), (50, 60))%Z] Hr eq_refl Hs).
Defined.

(** * The orchestrator *)

(** C7. Whenever [detect_face] finds no face, [recognize_facial_expression]
    returns (it does not raise) an [FER] object whose face coordinates, face
    image, emotion list and affect list are [None] and whose input image is
    the image it was given; the ensemble is not called. *)
Theorem C7_no_face `{E : Externals} (w w' : world) (img : image)
    (on_gpu : bool) (face_detection_method : Z) :
  detect_face img face_detection_method w = (Ok None, w') ->
  recognize_facial_expression img on_gpu face_detection_method w
  = (Ok {| Fer.input_image := Some img;
           Fer.face_coordinates := None;
           Fer.face_image := None;
           Fer.list_emotion := None;
           Fer.list_affect := None;
           Fer._list_grad_cam := None |}, w').
Proof.
  intros Hnone. unfold recognize_facial_expression, mbind, M_bind.
  by rewrite Hnone.
Qed.

Lemma C7_no_face_witness :
  exists w',
    detect_face (E := Demo.externals) Demo.no_face_image
      _ID_FACE_DETECTOR_DLIB Demo.fresh = (Ok None, w')
    /\ recognize_facial_expression (E := Demo.externals) Demo.no_face_image
         false _ID_FACE_DETECTOR_DLIB Demo.fresh
       = (Ok {| Fer.input_image := Some Demo.no_face_image;
                Fer.face_coordinates := None;
                Fer.face_image := None;
                Fer.list_emotion := None;
                Fer.list_affect := None;
                Fer._list_grad_cam := None |}, w').
Proof.
  eexists. split; [vm_compute; reflexivity|].
  apply (C7_no_face (E := Demo.externals)). vm_compute. reflexivity.
Defined.

(** * Selectors outside the three named ones *)

(** C8, as the code has it. A selector that is none of the three named
    values raises nothing: it takes the final [else] branch of [detect_face],
    which is the standard CNN backend. The detector is run once, on the
    greyscale image at full resolution, and the result is the one selector 2
    gives. *)
Theorem C8_other_selector_runs_standard `{E : Externals} (w : world)
    (det : cnn_detector) (img : image) (face_detection_method : Z) :
  face_detection_method <> _ID_FACE_DETECTOR_DLIB ->
  face_detection_method <> _ID_FACE_DETECTOR_DLIB_STANDARD ->
  face_detection_method <> _ID_FACE_DETECTOR_HAAR_CASCADE ->
  dlib_ready w det ->
  exists w',
    detect_face img face_detection_method w
    = (Ok (first_positive (rect_boxes (cnn_run det (convert_bgr_to_grey img)))),
       w')
    /\ detector_step w w' [convert_bgr_to_grey img]
    /\ detect_face img face_detection_method w
       = detect_face img _ID_FACE_DETECTOR_DLIB_STANDARD w.
Proof.
  intros H1 H2 H3 Hready.
  destruct (_dlib_face_detection_run w det (convert_bgr_to_grey img) Hready)
    as (w' & Hrun & _ & Hstep).
  assert (Hsame : detect_face img face_detection_method w
                  = detect_face img _ID_FACE_DETECTOR_DLIB_STANDARD w).
  { unfold detect_face, detect_face_coordinates.
    apply Z.eqb_neq in H1. apply Z.eqb_neq in H3. by rewrite H1, H3. }
  exists w'. split; [|split; [exact Hstep|exact Hsame]].
  rewrite Hsame. unfold detect_face, detect_face_coordinates, mbind, M_bind.
  simpl. by rewrite Hrun.
Qed.

Lemma C8_other_selector_runs_standard_witness :
  dlib_ready (E := Demo.externals) Demo.fresh tt
  /\ exists w',
       detect_face (E := Demo.externals) Demo.small_image 7 Demo.fresh
       = (Ok (Some ((10, 20), (50, 60))%Z), w')
       /\ detector_runs (calls w') = [Demo.small_image].
Proof.
  assert (Hr : dlib_ready (E := Demo.externals) Demo.fresh tt)
    by (right; split; reflexivity).
  split; [exact Hr|].
  destruct (C8_other_selector_runs_standard (E := Demo.externals) Demo.fresh tt
              Demo.small_image 7 ltac:(discriminate) ltac:(discriminate)
              ltac:(discriminate) Hr)
    as (w' & Hrun & Hstep & _).
  exists w'. split; [exact Hrun|exact (proj1 Hstep)].
Defined.

(** C8, as the claim states it, fails: with selector 7 [detect_face] raises
    nothing, runs the CNN detector on the image and returns the face it
    found. *)
Lemma C8_selector_7_does_not_raise :
  (detect_face (E := Demo.externals) Demo.small_image 7 Demo.fresh).1
  = Ok (Some ((10, 20), (50, 60))%Z)
  /\ detector_runs
       (calls (detect_face (E := Demo.externals) Demo.small_image 7
                 Demo.fresh).2)
     = [Demo.small_image]
  /\ (detect_face (E := Demo.externals) Demo.small_image 7 Demo.fresh).1
     <> Err (Raise "UnsupportedBackendSelector").
Proof.
  assert (H : (detect_face (E := Demo.externals) Demo.small_image 7
                 Demo.fresh).1 = Ok (Some ((10, 20), (50, 60))%Z))
    by (vm_compute; reflexivity).
  split; [exact H|]. split; [vm_compute; reflexivity|].
  rewrite H. discriminate.
Qed.

(** * Lazy initialisation of the backend handles *)

Section LazyInitProofs.

Context {E : Externals}.

Lemma global_of_lawful (k : handle_kind) : lawful (global_of k).
Proof. destruct k; repeat split. Qed.

(** The statement-level steps of one caller on its own are the lazy
    initialisation of [_dlib_face_detection]. *)
Lemma thread_steps_dlib_agree (w : world) (img : image) :
  match thread_steps (global_of CnnDetector) 4 (AtTest, w) with
  | (Holds h, w1) =>
      _dlib_face_detection img w
      = (Ok (rect_boxes (cnn_run h img)), (emit (DlibRun img) w1).2)
  | (Raised e, w1) => _dlib_face_detection img w = (Err e, w1)
  | _ => False
  end.
Proof.
  unfold _dlib_face_detection, mbind, M_bind, get_dlib, lift.
  cbn -[cnn_face_detection_model_v1].
  destruct (_FACE_DETECTOR_DLIB w) as [h|] eqn:Hg; cbn.
  - rewrite Hg. unfold thread_step. cbn. by rewrite Hg.
  - destruct (cnn_face_detection_model_v1
                "./model/utils/templates/dlib/cnn_face_detector.dat")
      as [h|e]; cbn; reflexivity.
Qed.

Section OneGlobal.

Context {H : Type} (g : lazy_global H) (h : H).
Hypothesis Hlaw : lawful g.
Hypothesis Hnew : construct g = Ok h.

Lemma four_steps_cached (w : world) :
  read g w = Some h -> thread_steps g 4 (AtTest, w) = (Holds h, w).
Proof. intros Hr. simpl. rewrite Hr. simpl. by rewrite Hr. Qed.

Lemma four_steps_fresh (w : world) :
  read g w = None ->
  exists w', thread_steps g 4 (AtTest, w) = (Holds h, w')
    /\ read g w' = Some h
    /\ constructions g w' = S (constructions g w).
Proof.
  destruct Hlaw as (Hread & Hcalls & Hemit & Hev).
  intros Hr. simpl. rewrite Hr. simpl. rewrite Hnew. simpl.
  rewrite Hread. eexists. split; [reflexivity|]. split; [apply Hread|].
  unfold constructions. rewrite Hcalls. simpl.
  rewrite List.filter_app, length_app. simpl. rewrite Hev. simpl. lia.
Qed.

Lemma pool_step_at (pre post : list (pc H)) (p : pc H) (w : world) :
  pool_step g (pre ++ p :: post, w) (length pre)
  = (pre ++ (thread_step g p w).1 :: post, (thread_step g p w).2).
Proof.
  unfold pool_step. simpl. rewrite list_lookup_middle by done.
  rewrite insert_app_r_alt by lia. by rewrite Nat.sub_diag.
Qed.

Lemma exec_replicate_at (k : nat) (pre post : list (pc H)) :
  forall (p : pc H) (w : world),
    exec g (replicate k (length pre)) (pre ++ p :: post, w)
    = (pre ++ (thread_steps g k (p, w)).1 :: post,
       (thread_steps g k (p, w)).2).
Proof.
  induction k as [|k IH]; intros p w; simpl; [done|].
  unfold exec in *. rewrite pool_step_at.
  destruct (thread_step g p w) as [p' w']. apply IH.
Qed.

Lemma exec_app (s1 s2 : list nat) (st : list (pc H) * world) :
  exec g (s1 ++ s2) st = exec g s2 (exec g s1 st).
Proof. unfold exec. apply fold_left_app. Qed.

(** Once the global holds [h], every later caller finds it. *)
Lemma exec_sequential_cached (N : nat) :
  forall (pre post : list (pc H)) (w : world),
    read g w = Some h ->
    exec g (flat_map (fun i => replicate 4 i) (seq (length pre) N))
      (pre ++ replicate N AtTest ++ post, w)
    = (pre ++ replicate N (Holds h) ++ post, w).
Proof.
  induction N as [|N IH]; intros pre post w Hr; [done|].
  change (exec g (replicate 4 (length pre)
                  ++ flat_map (fun i => replicate 4 i) (seq (S (length pre)) N))
            (pre ++ AtTest :: replicate N AtTest ++ post, w)
          = (pre ++ Holds h :: replicate N (Holds h) ++ post, w)).
  rewrite exec_app, exec_replicate_at, (four_steps_cached w Hr).
  cbn [fst snd].
  replace (pre ++ Holds h :: replicate N AtTest ++ post)
    with ((pre ++ [Holds h]) ++ replicate N AtTest ++ post)
    by (by rewrite <- app_assoc).
  replace (S (length pre)) with (length (pre ++ [Holds h]))
    by (rewrite length_app; simpl; lia).
  rewrite (IH _ post w Hr). by rewrite <- app_assoc.
Qed.

Lemma exec_sequential_fresh (N : nat) (w : world) :
  (1 <= N)%nat -> read g w = None ->
  exists w',
    exec g (sequential N) (replicate N AtTest, w) = (replicate N (Holds h), w')
    /\ constructions g w' = S (constructions g w)
    /\ read g w' = Some h.
Proof.
  intros HN Hr. destruct N as [|N]; [lia|].
  destruct (four_steps_fresh w Hr) as (w1 & Hsteps & Hr1 & Hcount).
  exists w1. split; [|by split].
  change (exec g (replicate 4 (length (@nil (pc H)))
                  ++ flat_map (fun i => replicate 4 i) (seq 1 N))
            ([] ++ AtTest :: replicate N AtTest, w)
          = (Holds h :: replicate N (Holds h), w1)).
  rewrite exec_app.
  rewrite (exec_replicate_at 4 [] (replicate N AtTest) AtTest w).
  rewrite Hsteps. simpl fst. simpl snd.
  pose proof (exec_sequential_cached N [Holds h] [] w1 Hr1) as Hrest.
  rewrite !app_nil_r in Hrest. exact Hrest.
Qed.

End OneGlobal.

End LazyInitProofs.

(** C9, as the code has it. Each of the three handles is constructed on its
    first use and kept in its global: when [N >= 1] callers use it one after
    the other, the constructor is called exactly once and every caller ends
    up holding the handle it returned. Nothing guards the three statements
    against callers that run at the same time. *)
Theorem C9_sequential_first_use `{E : Externals} (k : handle_kind) (N : nat)
    (h : handle_type k) (w : world) :
  (1 <= N)%nat ->
  read (global_of k) w = None ->
  construct (global_of k) = Ok h ->
  exists w',
    exec (global_of k) (sequential N) (replicate N AtTest, w)
    = (replicate N (Holds h), w')
    /\ constructions (global_of k) w' = S (constructions (global_of k) w)
    /\ read (global_of k) w' = Some h.
Proof.
  intros HN Hr Hnew.
  exact (exec_sequential_fresh (global_of k) h (global_of_lawful k) Hnew N w
           HN Hr).
Qed.

Lemma C9_sequential_first_use_witness :
  exists w',
    exec (E := Demo.externals) (global_of (EnsemblePredictor cpu))
      (sequential 3) (replicate 3 AtTest, Demo.fresh)
    = (replicate 3 (Holds tt), w')
    /\ constructions (global_of (EnsemblePredictor cpu)) w' = 1%nat.
Proof.
  destruct (C9_sequential_first_use (E := Demo.externals)
              (EnsemblePredictor cpu) 3 tt Demo.fresh
              ltac:(lia) eq_refl eq_refl) as (w' & Hexec & Hcount & _).
  exists w'. split; [exact Hexec|exact Hcount].
Defined.

(** C9, as the claim states it, fails: two callers that both test the global
    before either assigns it both call the constructor of the CNN detector,
    which is then constructed twice. *)
Lemma C9_two_callers_construct_twice :
  (exec (E := Demo.externals) (global_of CnnDetector)
     [0; 1; 0; 1; 0; 1; 0; 1]%nat ([AtTest; AtTest], Demo.fresh)).1
  = [Holds tt; Holds tt]
  /\ constructions (global_of CnnDetector)
       (exec (E := Demo.externals) (global_of CnnDetector)
          [0; 1; 0; 1; 0; 1; 0; 1]%nat ([AtTest; AtTest], Demo.fresh)).2
     = 2%nat.
Proof. split; vm_compute; reflexivity. Qed.

(** * Further properties of the orchestrator *)

(** X1. When [detect_face] finds a box and the ensemble returns a
    non-empty output for the pre-processed crop, the returned [FER] object
    holds the input image, the box, the crop [image[yi:yf, xi:xf]] of that
    box, and the [n + 1] labels and [n + 1] affect vectors that [_predict]
    gives for the crop resized, normalised and moved to the device chosen by
    [on_gpu]. *)
Theorem X1_recognize_populated `{E : Externals} (w w1 : world) (img : image)
    (on_gpu : bool) (face_detection_method : Z) (fc : box) (net : ensemble)
    (n m : nat) (emotion affect : list (list Q)) :
  let d := if on_gpu then cuda else cpu in
  let face := crop img fc.1.2 fc.2.2 fc.1.1 fc.2.1 in
  let input_face :=
    tensor_to (to_normalized_tensor (resize_to face INPUT_IMAGE_SIZE)) d in
  detect_face img face_detection_method w = (Ok (Some fc), w1) ->
  esr_ready w1 d net ->
  ensemble_run net input_face = (emotion, affect) ->
  (1 <= n)%nat -> (1 <= m)%nat ->
  ensemble_output n m emotion affect ->
  exists labels vectors w2,
    _predict input_face d w1 = (Ok (labels, vectors), w2)
    /\ recognize_facial_expression img on_gpu face_detection_method w
       = (Ok {| Fer.input_image := Some img;
                Fer.face_coordinates := Some fc;
                Fer.face_image := Some face;
                Fer.list_emotion := Some labels;
                Fer.list_affect := Some vectors;
                Fer._list_grad_cam := None |}, w2)
    /\ length labels = S n /\ length vectors = S n.
Proof.
  intros d face input_face Hdet Hready Hrun Hn Hm Hwf.
  destruct (_predict_run w1 d net input_face Hready) as (w2 & Hp & _).
  rewrite Hrun in Hp. simpl in Hp.
  destruct (aggregate_ok numpy get_class n m emotion affect Hn Hm Hwf)
    as (idxs & votes & c & _ & Hidx & _ & _ & Hagg).
  rewrite Hagg in Hp. do 2 eexists. exists w2.
  split; [exact Hp|]. split; [|split].
  - unfold recognize_facial_expression, mbind, M_bind. rewrite Hdet.
    unfold _pre_process_input_image. fold face. fold d. fold input_face.
    by rewrite Hp.
  - rewrite length_app, length_map. simpl.
    apply Forall2_length in Hidx. destruct Hwf as (Hle & _). lia.
  - rewrite length_app, length_map. simpl. destruct Hwf as (_ & Hla & _). lia.
Qed.

Lemma X1_recognize_populated_witness :
  exists fer w2,
    recognize_facial_expression (E := Demo.externals) Demo.small_image false
      _ID_FACE_DETECTOR_DLIB_STANDARD Demo.fresh = (Ok fer, w2)
    /\ Fer.face_coordinates fer = Some ((10, 20), (50, 60))%Z
    /\ (length <$> Fer.list_emotion fer) = Some 3%nat
    /\ (length <$> Fer.list_affect fer) = Some 3%nat.
Proof.
  assert (Hd : exists w1,
             detect_face (E := Demo.externals) Demo.small_image
               _ID_FACE_DETECTOR_DLIB_STANDARD Demo.fresh
             = (Ok (Some ((10, 20), (50, 60))%Z), w1)
             /\ esr_ready w1 cpu tt).
  { eexists. split; [vm_compute; reflexivity|]. right. split; reflexivity. }
  destruct Hd as (w1 & Hd & Hr).
  destruct (X1_recognize_populated (E := Demo.externals) Demo.fresh w1
              Demo.small_image false _ID_FACE_DETECTOR_DLIB_STANDARD
              ((10, 20), (50, 60))%Z tt 2 2
              [[0; 1]; [0; 1]] [[0; 0]; [0; 0]] Hd Hr)
    as (labels & vectors & w2 & _ & Hrec & Hl & Hv).
  - reflexivity.
  - lia.
  - lia.
  - repeat split; repeat constructor.
  - eexists. exists w2. split; [exact Hrec|]. simpl.
    split; [reflexivity|]. by rewrite Hl, Hv.
Defined.

(** ** Failing constructors *)

Section Failures.

Context {E : Externals}.

Lemma _dlib_face_detection_fails (w : world) (img : image) (e : exn) :
  _FACE_DETECTOR_DLIB w = None ->
  cnn_face_detection_model_v1
    "./model/utils/templates/dlib/cnn_face_detector.dat" = Err e ->
  _dlib_face_detection img w = (Err e, append_calls w [DlibConstruct]).
Proof.
  intros Hn He. unfold _dlib_face_detection, mbind, M_bind, get_dlib, lift.
  cbn -[cnn_face_detection_model_v1]. rewrite Hn. cbn. by rewrite He.
Qed.

Lemma scale_factors_for_cons (grey : image) :
  exists s1 s2, scale_factors_for grey = [s1; s2].
Proof.
  unfold scale_factors_for.
  destruct (_DLIB_SCALE_FACTOR_THRESHOLD <? image_size grey)%Z; eauto.
Qed.

Lemma detect_face_coordinates_fails (w : world) (img : image)
    (face_detection_method : Z) (e : exn) :
  face_detection_method <> _ID_FACE_DETECTOR_HAAR_CASCADE ->
  _FACE_DETECTOR_DLIB w = None ->
  cnn_face_detection_model_v1
    "./model/utils/templates/dlib/cnn_face_detector.dat" = Err e ->
  detect_face_coordinates img face_detection_method w
  = (Err e, append_calls w [DlibConstruct]).
Proof.
  intros H3 Hn He. unfold detect_face_coordinates.
  apply Z.eqb_neq in H3. rewrite H3.
  destruct (face_detection_method =? _ID_FACE_DETECTOR_DLIB)%Z.
  - destruct (scale_factors_for_cons (convert_bgr_to_grey img))
      as (s1 & s2 & ->).
    simpl. unfold mbind, M_bind.
    by rewrite (_dlib_face_detection_fails w _ e Hn He).
  - by apply _dlib_face_detection_fails.
Qed.

End Failures.

(** X2. With either CNN backend, when the detector is not cached and its
    constructor raises, [detect_face] and [recognize_facial_expression]
    raise the constructor's exception: it is not turned into a result
    without a face. The constructor was called once, no detector and no
    ensemble was run, and the global is still [None], so the next call
    tries the constructor again. *)
Theorem X2_detector_constructor_raises `{E : Externals} (w : world)
    (img : image) (on_gpu : bool) (face_detection_method : Z) (e : exn) :
  face_detection_method <> _ID_FACE_DETECTOR_HAAR_CASCADE ->
  _FACE_DETECTOR_DLIB w = None ->
  cnn_face_detection_model_v1
    "./model/utils/templates/dlib/cnn_face_detector.dat" = Err e ->
  detect_face img face_detection_method w
  = (Err e, append_calls w [DlibConstruct])
  /\ recognize_facial_expression img on_gpu face_detection_method w
     = (Err e, append_calls w [DlibConstruct])
  /\ detect_face img face_detection_method (append_calls w [DlibConstruct])
     = (Err e, append_calls w [DlibConstruct; DlibConstruct]).
Proof.
  intros H3 Hn He.
  assert (Hd : forall w0, _FACE_DETECTOR_DLIB w0 = None ->
             detect_face img face_detection_method w0
             = (Err e, append_calls w0 [DlibConstruct])).
  { intros w0 Hn0. unfold detect_face, mbind, M_bind.
    by rewrite (detect_face_coordinates_fails w0 img _ e H3 Hn0 He). }
  split; [by apply Hd|]. split.
  - unfold recognize_facial_expression, mbind, M_bind. by rewrite (Hd w Hn).
  - rewrite (Hd (append_calls w [DlibConstruct]) Hn).
    unfold append_calls. simpl. by rewrite <- app_assoc.
Qed.

Lemma X2_detector_constructor_raises_witness :
  recognize_facial_expression (E := DemoFailures.no_detector_file)
    Demo.large_image false _ID_FACE_DETECTOR_DLIB
    (DemoFailures.fresh DemoFailures.no_detector_file)
  = (Err (Raise "RuntimeError"),
     append_calls (DemoFailures.fresh DemoFailures.no_detector_file)
       [DlibConstruct]).
Proof.
  exact (proj1 (proj2
    (X2_detector_constructor_raises (E := DemoFailures.no_detector_file)
       (DemoFailures.fresh DemoFailures.no_detector_file)
       Demo.large_image false _ID_FACE_DETECTOR_DLIB (Raise "RuntimeError")
       ltac:(discriminate) eq_refl eq_refl))).
Defined.

(** X3. When a face was found but the ensemble is not cached and
    [Ensemble.load] raises, [recognize_facial_expression] raises that
    exception and returns no [FER] object; the state is the one detection
    left plus the failed load, so the ensemble is still [None] and was not
    run. *)
Theorem X3_ensemble_load_raises `{E : Externals} (w w1 : world) (img : image)
    (on_gpu : bool) (face_detection_method : Z) (fc : box) (e : exn) :
  detect_face img face_detection_method w = (Ok (Some fc), w1) ->
  _ESR_9 w1 = None ->
  Ensemble_load (if on_gpu then cuda else cpu) = Err e ->
  recognize_facial_expression img on_gpu face_detection_method w
  = (Err e, append_calls w1 [EsrLoad (if on_gpu then cuda else cpu)]).
Proof.
  intros Hdet Hn He.
  unfold recognize_facial_expression, mbind, M_bind. rewrite Hdet.
  unfold _predict, mbind, M_bind, get_esr, lift.
  cbn -[Ensemble_load]. rewrite Hn. cbn -[Ensemble_load]. by rewrite He.
Qed.

Lemma X3_ensemble_load_raises_witness :
  exists w',
    recognize_facial_expression (E := DemoFailures.no_weights)
      Demo.small_image true _ID_FACE_DETECTOR_HAAR_CASCADE
      (DemoFailures.fresh DemoFailures.no_weights)
    = (Err (Raise "FileNotFoundError"), w')
    /\ _ESR_9 w' = None
    /\ ensemble_runs (calls w') = [].
Proof.
  eexists. split; [|split].
  - eapply (X3_ensemble_load_raises (E := DemoFailures.no_weights)).
    + vm_compute. reflexivity.
    + reflexivity.
    + reflexivity.
  - reflexivity.
  - reflexivity.
Defined.

(** ** A cached backend *)

Section Cached.

Context {E : Externals}.

Lemma append_calls_app (w : world) (evs evs' : list event) :
  append_calls (append_calls w evs) evs' = append_calls w (evs ++ evs').
Proof. unfold append_calls. simpl. by rewrite app_assoc. Qed.

Lemma append_calls_nil (w : world) : append_calls w [] = w.
Proof. destruct w. unfold append_calls. simpl. by rewrite app_nil_r. Qed.

Lemma _dlib_face_detection_cached (w : world) (det : cnn_detector) (img : image) :
  _FACE_DETECTOR_DLIB w = Some det ->
  _dlib_face_detection img w
  = (Ok (rect_boxes (cnn_run det img)), append_calls w [DlibRun img]).
Proof.
  intros Hc.
  unfold _dlib_face_detection, mbind, M_bind, get_dlib, append_calls.
  cbn. rewrite Hc. cbn. by rewrite ?Hc.
Qed.

Lemma _haar_cascade_face_detection_cached (w : world) (c : cascade)
    (img : image) (scale_factor : Q) (neighbors : Z) (min_size : Z * Z) :
  _FACE_DETECTOR_HAAR_CASCADE w = Some c ->
  _haar_cascade_face_detection img scale_factor neighbors min_size w
  = (Ok (haar_boxes (detectMultiScale c img scale_factor neighbors min_size)),
     append_calls w [HaarRun img]).
Proof.
  intros Hc.
  unfold _haar_cascade_face_detection, mbind, M_bind, get_haar, append_calls.
  cbn. rewrite Hc. cbn. by rewrite ?Hc.
Qed.

Lemma dlib_scale_loop_cached (det : cnn_detector) (grey : image)
    (scales : list Q) :
  forall w, _FACE_DETECTOR_DLIB w = Some det ->
    dlib_scale_loop grey scales [] w
    = (Ok (first_hit det grey scales),
       append_calls w (map DlibRun (map (resize_f grey) (tried det grey scales)))).
Proof.
  induction scales as [|s rest IH]; intros w Hc; simpl.
  - by rewrite append_calls_nil.
  - unfold mbind, M_bind.
    rewrite (_dlib_face_detection_cached w det _ Hc).
    fold (faces_at det grey s).
    destruct (0 <? length (faces_at det grey s))%nat eqn:Hhit; [done|].
    assert (Hnil : faces_at det grey s = []).
    { apply Nat.ltb_ge in Hhit. destruct (faces_at det grey s); [done|].
      simpl in Hhit. lia. }
    rewrite Hnil, (IH (append_calls w [DlibRun (resize_f grey s)]) Hc).
    by rewrite append_calls_app.
Qed.

Lemma detect_face_cached (w : world) (det : cnn_detector) (c : cascade)
    (img : image) (face_detection_method : Z) :
  backend_cached w face_detection_method det c ->
  detect_face img face_detection_method w
  = (Ok (first_positive (candidates det c img face_detection_method)),
     append_calls w (map (run_event face_detection_method)
                       (images_tried det img face_detection_method))).
Proof.
  unfold backend_cached, detect_face, detect_face_coordinates, candidates,
    images_tried, run_event, mbind, M_bind.
  destruct (face_detection_method =? _ID_FACE_DETECTOR_HAAR_CASCADE)%Z.
  - intros Hc. by rewrite (_haar_cascade_face_detection_cached w c _ _ _ _ Hc).
  - intros Hc. destruct (face_detection_method =? _ID_FACE_DETECTOR_DLIB)%Z.
    + by rewrite (dlib_scale_loop_cached det _ _ w Hc).
    + by rewrite (_dlib_face_detection_cached w det _ Hc).
Qed.

Lemma construct_calls_runs (face_detection_method : Z) (imgs : list image) :
  construct_calls (map (run_event face_detection_method) imgs) = [].
Proof.
  unfold run_event.
  induction imgs as [|img imgs IH]; simpl; [done|].
  by destruct (face_detection_method =? _ID_FACE_DETECTOR_HAAR_CASCADE)%Z.
Qed.

End Cached.

(** X4. Once the handle of the selected backend is cached, [detect_face]
    returns normally and changes nothing but the trace, to which it appends
    the runs of that backend's detector: no constructor is called, and the
    globals are as they were. *)
Theorem X4_cached_backend_only_runs `{E : Externals} (w : world)
    (det : cnn_detector) (c : cascade) (img : image)
    (face_detection_method : Z) :
  backend_cached w face_detection_method det c ->
  exists r w',
    detect_face img face_detection_method w = (Ok r, w')
    /\ w' = append_calls w (map (run_event face_detection_method)
                              (images_tried det img face_detection_method))
    /\ construct_calls (calls w') = construct_calls (calls w)
    /\ backend_cached w' face_detection_method det c.
Proof.
  intros Hc. do 2 eexists.
  split; [by apply detect_face_cached|]. split; [reflexivity|]. split.
  - unfold construct_calls. simpl. rewrite List.filter_app.
    fold (construct_calls (calls w)).
    fold (construct_calls
            (map (run_event face_detection_method)
               (images_tried det img face_detection_method))).
    by rewrite construct_calls_runs, app_nil_r.
  - exact Hc.
Qed.

Lemma X4_cached_backend_only_runs_witness :
  exists r,
    detect_face (E := Demo.externals) Demo.large_image
      _ID_FACE_DETECTOR_DLIB DemoStates.warm
    = (Ok r,
       append_calls DemoStates.warm
         [DlibRun (resize_f (Externals := Demo.externals)
                     Demo.large_image 0.2)]).
Proof.
  destruct (X4_cached_backend_only_runs (E := Demo.externals)
              DemoStates.warm tt tt Demo.large_image
              _ID_FACE_DETECTOR_DLIB eq_refl) as (r & w' & Hrun & -> & _).
  exists r. exact Hrun.
Defined.

(** ** The first use of a backend *)

Section FirstUseProofs.

Context {E : Externals}.

Lemma _dlib_face_detection_first (w : world) (det : cnn_detector) (img : image) :
  _FACE_DETECTOR_DLIB w = None ->
  cnn_face_detection_model_v1
    "./model/utils/templates/dlib/cnn_face_detector.dat" = Ok det ->
  _dlib_face_detection img w
  = (Ok (rect_boxes (cnn_run det img)),
     append_calls (set_dlib det (append_calls w [DlibConstruct])).2
       [DlibRun img]).
Proof.
  intros Hn Hnew.
  unfold _dlib_face_detection, mbind, M_bind, get_dlib, lift, append_calls.
  cbn -[cnn_face_detection_model_v1]. rewrite Hn.
  cbn -[cnn_face_detection_model_v1]. rewrite Hnew. reflexivity.
Qed.

Lemma _haar_cascade_face_detection_first (w : world) (c : cascade)
    (img : image) (scale_factor : Q) (neighbors : Z) (min_size : Z * Z) :
  _FACE_DETECTOR_HAAR_CASCADE w = None ->
  CascadeClassifier
    "./model/utils/templates/haar_cascade/frontal_face.xml" = Ok c ->
  _haar_cascade_face_detection img scale_factor neighbors min_size w
  = (Ok (haar_boxes (detectMultiScale c img scale_factor neighbors min_size)),
     append_calls (set_haar c (append_calls w [HaarConstruct])).2
       [HaarRun img]).
Proof.
  intros Hn Hnew.
  unfold _haar_cascade_face_detection, mbind, M_bind, get_haar, lift,
    append_calls.
  cbn -[CascadeClassifier]. rewrite Hn.
  cbn -[CascadeClassifier]. rewrite Hnew. reflexivity.
Qed.

Lemma dlib_scale_loop_first (det : cnn_detector) (grey : image)
    (s : Q) (rest : list Q) (w : world) :
  _FACE_DETECTOR_DLIB w = None ->
  cnn_face_detection_model_v1
    "./model/utils/templates/dlib/cnn_face_detector.dat" = Ok det ->
  dlib_scale_loop grey (s :: rest) [] w
  = (Ok (first_hit det grey (s :: rest)),
     append_calls (set_dlib det (append_calls w [DlibConstruct])).2
       (map DlibRun (map (resize_f grey) (tried det grey (s :: rest))))).
Proof.
  intros Hn Hnew. simpl. unfold mbind, M_bind.
  rewrite (_dlib_face_detection_first w det _ Hn Hnew).
  fold (faces_at det grey s).
  destruct (0 <? length (faces_at det grey s))%nat eqn:Hhit; [done|].
  assert (Hnil : faces_at det grey s = []).
  { apply Nat.ltb_ge in Hhit. destruct (faces_at det grey s); [done|].
    simpl in Hhit. lia. }
  rewrite Hnil, dlib_scale_loop_cached with (det := det) by reflexivity.
  by rewrite append_calls_app.
Qed.

Lemma detect_face_first (w : world) (det : cnn_detector) (c : cascade)
    (img : image) (face_detection_method : Z) :
  backend_absent w face_detection_method ->
  backend_constructs face_detection_method det c ->
  exists w',
    detect_face img face_detection_method w
    = (Ok (first_positive (candidates det c img face_detection_method)), w')
    /\ backend_cached w' face_detection_method det c
    /\ calls w'
       = calls w ++ backend_construct_event face_detection_method
                    :: map (run_event face_detection_method)
                         (images_tried det img face_detection_method).
Proof.
  unfold backend_absent, backend_constructs, backend_cached,
    backend_construct_event, detect_face, detect_face_coordinates, candidates,
    images_tried, run_event, mbind, M_bind.
  destruct (face_detection_method =? _ID_FACE_DETECTOR_HAAR_CASCADE)%Z.
  - intros Hn Hnew.
    rewrite (_haar_cascade_face_detection_first w c _ _ _ _ Hn Hnew).
    eexists. split; [reflexivity|]. split; [reflexivity|].
    simpl. by rewrite <- app_assoc.
  - intros Hn Hnew.
    destruct (face_detection_method =? _ID_FACE_DETECTOR_DLIB)%Z.
    + destruct (scale_factors_for_cons (convert_bgr_to_grey img))
        as (s1 & s2 & ->).
      rewrite (dlib_scale_loop_first det _ s1 [s2] w Hn Hnew).
      eexists. split; [reflexivity|]. split; [reflexivity|].
      unfold append_calls. cbn [calls set_dlib snd]. by rewrite <- app_assoc.
    + rewrite (_dlib_face_detection_first w det _ Hn Hnew).
      eexists. split; [reflexivity|]. split; [reflexivity|].
      simpl. by rewrite <- app_assoc.
Qed.

End FirstUseProofs.

(** X5. The first use of a backend: when its global is [None] and its
    constructor returns, [detect_face] calls the constructor exactly once,
    before the first run of the detector, returns normally, and leaves the
    handle in the global, so that X4 applies to every later call. *)
Theorem X5_first_use_constructs_once `{E : Externals} (w : world)
    (det : cnn_detector) (c : cascade) (img : image)
    (face_detection_method : Z) :
  backend_absent w face_detection_method ->
  backend_constructs face_detection_method det c ->
  exists r w',
    detect_face img face_detection_method w = (Ok r, w')
    /\ backend_cached w' face_detection_method det c
    /\ calls w'
       = calls w ++ backend_construct_event face_detection_method
                    :: map (run_event face_detection_method)
                         (images_tried det img face_detection_method)
    /\ construct_calls (calls w')
       = construct_calls (calls w)
         ++ [backend_construct_event face_detection_method].
Proof.
  intros Hn Hnew.
  destruct (detect_face_first w det c img face_detection_method Hn Hnew)
    as (w' & Hrun & Hc & Hcalls).
  eexists. exists w'. split; [exact Hrun|]. split; [exact Hc|].
  split; [exact Hcalls|]. rewrite Hcalls.
  unfold construct_calls at 1. rewrite List.filter_app. simpl.
  fold (construct_calls (calls w)).
  fold (construct_calls
          (map (run_event face_detection_method)
             (images_tried det img face_detection_method))).
  rewrite construct_calls_runs. unfold backend_construct_event.
  by destruct (face_detection_method =? _ID_FACE_DETECTOR_HAAR_CASCADE)%Z.
Qed.

Lemma X5_first_use_constructs_once_witness :
  exists r w',
    detect_face (E := Demo.externals) Demo.small_image
      _ID_FACE_DETECTOR_HAAR_CASCADE Demo.fresh = (Ok r, w')
    /\ calls w'
       = [HaarConstruct;
          HaarRun (convert_bgr_to_grey (Externals := Demo.externals)
                     Demo.small_image)].
Proof.
  destruct (X5_first_use_constructs_once (E := Demo.externals) Demo.fresh
              tt tt Demo.small_image _ID_FACE_DETECTOR_HAAR_CASCADE
              eq_refl eq_refl) as (r & w' & Hrun & _ & Hcalls & _).
  exists r, w'. split; [exact Hrun|exact Hcalls].
Defined.

(** * Further properties of the ensemble handle and of the detector adapter *)

(** X6. Once the ensemble is cached, the [device] argument of [_predict] has
    no effect: nothing is loaded, the cached network (loaded for the device
    of the first call) is run on the input, and result and state are the
    same for [cuda] and [cpu]. *)
Theorem X6_cached_ensemble_ignores_device `{E : Externals} (w : world)
    (net : ensemble) (input_face : tensor) (d d' : device) :
  _ESR_9 w = Some net ->
  _predict input_face d w = _predict input_face d' w
  /\ _predict input_face d w
     = (aggregate numpy get_class (ensemble_run net input_face).1
          (ensemble_run net input_face).2,
        append_calls w [EsrRun input_face]).
Proof.
  intros Hc.
  assert (H : forall d0, _predict input_face d0 w
              = (aggregate numpy get_class (ensemble_run net input_face).1
                   (ensemble_run net input_face).2,
                 append_calls w [EsrRun input_face])).
  { intros d0. unfold _predict, mbind, M_bind, get_esr, lift, append_calls.
    cbn. rewrite Hc. cbn. rewrite ?Hc.
    by destruct (ensemble_run net input_face). }
  split; [by rewrite (H d), (H d')|apply H].
Qed.

Lemma X6_cached_ensemble_ignores_device_witness :
  _predict (E := Demo.externals)
    (Outputs.emotion_0_1, Outputs.affect_2) cuda DemoStates.warm
  = _predict (E := Demo.externals)
      (Outputs.emotion_0_1, Outputs.affect_2) cpu DemoStates.warm.
Proof.
  exact (proj1 (X6_cached_ensemble_ignores_device (E := Demo.externals)
                  DemoStates.warm tt (Outputs.emotion_0_1, Outputs.affect_2)
                  cuda cpu eq_refl)).
Defined.

(** X7. With the cascade backend, whenever the classifier reports
    detections and the first one, [(x, y, w, h)], has its corner at
    non-negative coordinates and a window of positive size, [detect_face]
    returns the box [[[x, y], [x + w, y + h]]] of this first detection, whose
    first corner lies strictly above and left of its second. *)
Theorem X7_cascade_first_detection_returned `{E : Externals} (w : world)
    (c : cascade) (img : image) (x y wd h : Z)
    (rest : list (Z * Z * Z * Z)) :
  haar_ready w c ->
  detectMultiScale c (convert_bgr_to_grey img) _HAAR_SCALE_FACTOR
    _HAAR_NEIGHBORS _HAAR_MIN_SIZE = Some ((x, y, wd, h) :: rest) ->
  natural_detection (x, y, wd, h) ->
  exists w',
    detect_face img _ID_FACE_DETECTOR_HAAR_CASCADE w
    = (Ok (Some ((x, y), (x + wd, y + h))%Z), w')
    /\ proper_box ((x, y), (x + wd, y + h))%Z
    /\ detector_step w w' [convert_bgr_to_grey img].
Proof.
  intros Hready Hfaces (Hx & Hy & Hw & Hh). simpl in Hx, Hy, Hw, Hh.
  destruct (_haar_cascade_face_detection_run w c (convert_bgr_to_grey img)
              _HAAR_SCALE_FACTOR _HAAR_NEIGHBORS _HAAR_MIN_SIZE Hready)
    as (w' & Hrun & _ & Hstep).
  exists w'. split; [|split; [|exact Hstep]].
  - unfold detect_face, detect_face_coordinates, mbind, M_bind. simpl.
    rewrite Hrun, Hfaces. simpl. unfold box_sum. simpl.
    assert (Hpos : (0 <? x + y + (x + wd + (y + h)))%Z = true)
      by (apply Z.ltb_lt; lia).
    by rewrite Hpos.
  - unfold proper_box. simpl. lia.
Qed.

Lemma X7_cascade_first_detection_returned_witness :
  haar_ready (E := Demo.externals) Demo.fresh tt
  /\ natural_detection (10, 20, 40, 40)%Z
  /\ exists w',
       detect_face (E := Demo.externals) Demo.small_image
         _ID_FACE_DETECTOR_HAAR_CASCADE Demo.fresh
       = (Ok (Some ((10, 20), (10 + 40, 20 + 40))%Z), w').
Proof.
  assert (Hr : haar_ready (E := Demo.externals) Demo.fresh tt)
    by (right; split; reflexivity).
  assert (Hn : natural_detection (10, 20, 40, 40)%Z)
    by (unfold natural_detection; simpl; lia).
  split; [exact Hr|]. split; [exact Hn|].
  destruct (X7_cascade_first_detection_returned (E := Demo.externals)
              Demo.fresh tt Demo.small_image 10 20 40 40 [] Hr eq_refl Hn)
    as (w' & Hrun & _).
  exists w'. exact Hrun.
Defined.

(** ** Rescaling and selection *)

Lemma box_sum_times (k : Z) (b : box) :
  box_sum (box_times k b) = (k * box_sum b)%Z.
Proof. unfold box_sum, box_times. simpl. lia. Qed.

Lemma first_positive_times (k : Z) (l : list box) :
  (0 < k)%Z ->
  first_positive (map (box_times k) l) = box_times k <$> first_positive l.
Proof.
  intros Hk. destruct l as [|b l]; simpl; [done|].
  rewrite box_sum_times.
  destruct (0 <? box_sum b)%Z eqn:Hb.
  - apply Z.ltb_lt in Hb.
    assert (H : (0 <? k * box_sum b)%Z = true) by (apply Z.ltb_lt; nia).
    by rewrite H.
  - apply Z.ltb_ge in Hb.
    assert (H : (0 <? k * box_sum b)%Z = false) by (apply Z.ltb_ge; nia).
    by rewrite H.
Qed.

Lemma scale_factor_reciprocal `{E : Externals} (grey : image) (s : Q) :
  s ∈ scale_factors_for grey ->
  exists k, (0 < k)%Z /\ Qnum (1 / s) = (k * Z.pos (Qden (1 / s)))%Z.
Proof.
  unfold scale_factors_for.
  destruct (_DLIB_SCALE_FACTOR_THRESHOLD <? image_size grey)%Z; intros Hs.
  - apply elem_of_cons in Hs as [->|Hs]; [by exists 5%Z|].
    apply elem_of_cons in Hs as [->|Hs]; [by exists 2%Z|].
    by apply elem_of_nil in Hs.
  - apply elem_of_cons in Hs as [->|Hs]; [by exists 2%Z|].
    apply elem_of_cons in Hs as [->|Hs]; [by exists 1%Z|].
    by apply elem_of_nil in Hs.
Qed.

(** X8. For every scale factor the multiscale backend can use, rescaling the
    detector's boxes commutes with the selection of line 84: the face
    returned is the rescaled first box exactly when the first box as the
    detector reported it has a strictly positive coordinate sum, whatever
    the scale; and a box with its first corner above and left of its second
    keeps this shape. *)
Theorem X8_rescaling_commutes_with_selection `{E : Externals} (grey : image)
    (s : Q) (l : list box) :
  s ∈ scale_factors_for grey ->
  first_positive (map (rescale_box s) l) = rescale_box s <$> first_positive l
  /\ (forall b, proper_box b -> proper_box (rescale_box s b))
  /\ (forall b, (0 < box_sum (rescale_box s b))%Z <-> (0 < box_sum b)%Z).
Proof.
  intros Hs. destruct (scale_factor_reciprocal grey s Hs) as (k & Hk & Hrec).
  split; [|split].
  - rewrite (map_rescale_times s k l Hrec), (first_positive_times k l Hk).
    destruct (first_positive l) as [b|]; simpl; [|done].
    by rewrite (rescale_box_times s k b Hrec).
  - intros b [Hx Hy]. rewrite (rescale_box_times s k b Hrec).
    unfold proper_box, box_times. simpl. nia.
  - intros b. rewrite (rescale_box_times s k b Hrec), box_sum_times. nia.
Qed.

Lemma X8_rescaling_commutes_with_selection_witness :
  first_positive
    (map (rescale_box 0.2) [((-50, -50), (30, 30)); ((10, 20), (50, 60))]%Z)
  = None
  /\ first_positive
       (map (rescale_box 0.2) [((10, 20), (50, 60)); ((-50, -50), (30, 30))]%Z)
     = Some ((50, 100), (250, 300))%Z.
Proof.
  split.
  - rewrite (proj1 (X8_rescaling_commutes_with_selection
                      (E := Demo.externals) Demo.large_image 0.2 _
                      ltac:(vm_compute; apply list_elem_of_here))).
    reflexivity.
  - rewrite (proj1 (X8_rescaling_commutes_with_selection
                      (E := Demo.externals) Demo.large_image 0.2 _
                      ltac:(vm_compute; apply list_elem_of_here))).
    reflexivity.
Defined.

(** * The result container *)

(** X9. For every [FER] object that [recognize_facial_expression] returns,
    with or without a face, [get_grad_cam] returns [None] for every index and
    never raises: [__init__] sets [_list_grad_cam] to [None] and nothing
    assigns it afterwards. *)
Theorem X9_grad_cam_never_available `{E : Externals} (w w' : world)
    (img : image) (on_gpu : bool) (face_detection_method : Z)
    (fer : Fer.FER image box) (i : Z) :
  recognize_facial_expression img on_gpu face_detection_method w
  = (Ok fer, w') ->
  Fer.get_grad_cam fer i = Ok None.
Proof.
  unfold recognize_facial_expression, mbind, M_bind.
  destruct (detect_face img face_detection_method w) as [[[fc|]|e] w1].
  - match goal with
    | |- context [_predict ?t ?d w1] =>
        destruct (_predict t d w1) as [[[emotion affect]|e] w2]
    end.
    + intros [= <- _]. reflexivity.
    + discriminate.
  - intros [= <- _]. reflexivity.
  - discriminate.
Qed.

Lemma X9_grad_cam_never_available_witness :
  exists fer w',
    recognize_facial_expression (E := Demo.externals) Demo.small_image false
      _ID_FACE_DETECTOR_DLIB Demo.fresh = (Ok fer, w')
    /\ Fer.get_grad_cam fer 0 = Ok None
    /\ Fer.get_grad_cam fer (-1) = Ok None.
Proof.
  assert (H : exists fer w',
            recognize_facial_expression (E := Demo.externals) Demo.small_image
              false _ID_FACE_DETECTOR_DLIB Demo.fresh = (Ok fer, w'))
    by (do 2 eexists; vm_compute; reflexivity).
  destruct H as (fer & w' & H). exists fer, w'. split; [exact H|].
  split; exact (X9_grad_cam_never_available (E := Demo.externals)
                  Demo.fresh w' Demo.small_image false
                  _ID_FACE_DETECTOR_DLIB fer _ H).
Defined.

(** * Further properties of the aggregation *)

(** ** Ranges of the affect vectors *)

Lemma clip_unit (x : Q) : 0 <= Np.clip x 0 1 <= 1.
Proof.
  unfold Np.clip. split.
  - apply Q.min_glb; [apply Q.le_max_r|lra].
  - apply Q.le_min_r.
Qed.

Lemma inject_Z_of_nat_S (n : nat) :
  inject_Z (Z.of_nat (S n)) == inject_Z (Z.of_nat n) + 1.
Proof.
  rewrite Nat2Z.inj_succ. unfold Z.succ. rewrite inject_Z_plus. reflexivity.
Qed.

Lemma sum_bounds (lo hi : Q) (l : list Q) :
  Forall (fun x => lo <= x <= hi) l ->
  inject_Z (Z.of_nat (length l)) * lo <= Np.sum l
  /\ Np.sum l <= inject_Z (Z.of_nat (length l)) * hi.
Proof.
  induction 1 as [|x l [Hlo Hhi] _ [IHlo IHhi]].
  - cbn [length Np.sum fold_right]. change (inject_Z (Z.of_nat 0)) with 0.
    split; lra.
  - cbn [length Np.sum fold_right]. fold (Np.sum l).
    rewrite inject_Z_of_nat_S. split; lra.
Qed.

Lemma mean_bounds (lo hi : Q) (l : list Q) (n : nat) :
  (1 <= n)%nat -> length l = n ->
  Forall (fun x => lo <= x <= hi) l ->
  lo <= Np.sum l / inject_Z (Z.of_nat n) <= hi.
Proof.
  intros Hn Hlen Hall. destruct (sum_bounds lo hi l Hall) as [Hlo Hhi].
  rewrite Hlen in Hlo, Hhi.
  assert (Hpos : 0 < inject_Z (Z.of_nat n)).
  { change 0 with (inject_Z 0). rewrite <- Zlt_Qlt. lia. }
  split.
  - apply Qle_shift_div_l; [done|]. lra.
  - apply Qle_shift_div_r; [done|]. lra.
Qed.

Lemma arousal_column_unit (affect : list (list Q)) :
  Forall (fun r => length r = 2%nat) affect ->
  Forall (fun x => 0 <= x <= 1)
    (map (fun r => nth 1 r 0) (map renorm_row affect)).
Proof.
  induction 1 as [|r rows Hr _ IH]; simpl; constructor; [|done].
  destruct r as [|v [|a [|]]]; simpl in Hr; try lia. apply clip_unit.
Qed.

Lemma renorm_rows_ranges (lo hi : Q) (affect : list (list Q)) :
  Forall (fun r => length r = 2%nat) affect ->
  Forall (fun r => lo <= valence r <= hi) affect ->
  Forall (fun r => exists v a, r = [v; a] /\ lo <= v <= hi /\ 0 <= a <= 1)
    (map renorm_row affect).
Proof.
  induction 1 as [|r rows Hr _ IH]; intros Hval; simpl; [constructor|].
  inversion Hval as [|? ? Hv Hvs]; subst.
  constructor; [|by apply IH].
  destruct r as [|v [|a [|]]]; simpl in Hr; try lia.
  exists v, (Np.clip ((a + 1) / 2.0) 0 1).
  split; [reflexivity|]. split; [exact Hv|apply clip_unit].
Qed.

(** X10. On every non-empty ensemble output, each affect vector [_predict]
    returns, the consensus included, is a pair whose arousal lies in
    [[0, 1]]; and whenever the valences of all branches lie in an interval
    [[lo, hi]], so does the valence of every returned vector, the consensus
    included. *)
Theorem X10_affect_ranges `{E : Externals} (w : world) (d : device)
    (net : ensemble) (input_face : tensor) (n m : nat)
    (emotion affect : list (list Q)) (lo hi : Q) :
  esr_ready w d net ->
  ensemble_run net input_face = (emotion, affect) ->
  (1 <= n)%nat -> (1 <= m)%nat ->
  ensemble_output n m emotion affect ->
  Forall (fun r => lo <= valence r <= hi) affect ->
  exists to_return_emotion to_return_affect w',
    _predict input_face d w = (Ok (to_return_emotion, to_return_affect), w')
    /\ Forall (fun r => exists v a, r = [v; a]
                          /\ lo <= v <= hi /\ 0 <= a <= 1)
         to_return_affect.
Proof.
  intros Hready Hrun Hn Hm Hwf Hval.
  destruct (_predict_run w d net input_face Hready) as (w' & Hp & _).
  rewrite Hrun in Hp. simpl in Hp.
  destruct (aggregate_ok numpy get_class n m emotion affect Hn Hm Hwf)
    as (idxs & votes & c & _ & _ & _ & _ & Hagg).
  rewrite Hagg in Hp. clear Hagg.
  destruct Hwf as (_ & Hla & _ & Ha).
  do 2 eexists. exists w'. split; [exact Hp|].
  apply Forall_app. split.
  - by apply renorm_rows_ranges.
  - constructor; [|constructor]. do 2 eexists. split; [reflexivity|].
    rewrite Hla. split.
    + rewrite valence_renorm by done.
      apply mean_bounds; [done|by rewrite length_map|].
      by apply Forall_fmap.
    + apply mean_bounds; [done|by rewrite !length_map|].
      by apply arousal_column_unit.
Qed.

Lemma X10_affect_ranges_witness :
  esr_ready (E := Demo.externals) Demo.fresh cpu tt
  /\ Forall (fun r => -(1) <= valence r <= 1) Outputs.affect_3
  /\ exists to_return_emotion to_return_affect w',
       _predict (E := Demo.externals)
         (Outputs.emotion_1_1_2, Outputs.affect_3) cpu Demo.fresh
       = (Ok (to_return_emotion, to_return_affect), w')
       /\ Forall (fun r => exists v a, r = [v; a]
                             /\ -(1) <= v <= 1 /\ 0 <= a <= 1)
            to_return_affect.
Proof.
  assert (Hr : esr_ready (E := Demo.externals) Demo.fresh cpu tt)
    by (right; split; reflexivity).
  assert (Hv : Forall (fun r => -(1) <= valence r <= 1) Outputs.affect_3).
  { repeat constructor; vm_compute; discriminate. }
  split; [exact Hr|]. split; [exact Hv|].
  apply (X10_affect_ranges (E := Demo.externals) Demo.fresh cpu tt
           (Outputs.emotion_1_1_2, Outputs.affect_3) 3 3
           Outputs.emotion_1_1_2 Outputs.affect_3 (-(1)) 1 Hr eq_refl);
    [lia|lia|repeat split; repeat constructor|exact Hv].
Defined.

(** ** The consensus class and the votes of the branches *)

Lemma Forall2_argmax_branch_class (emotion : list (list Q)) (idxs : list nat) :
  Forall2 (fun e k => Np.argmax e = Ok k) emotion idxs ->
  idxs = map branch_class emotion.
Proof.
  induction 1 as [|e k es ks Hk _ IH]; simpl; [done|].
  unfold branch_class at 1. by rewrite Hk, IH.
Qed.

Lemma Forall2_argmax_lt (m : nat) (emotion : list (list Q)) (idxs : list nat) :
  Forall (fun e => length e = m) emotion ->
  Forall2 (fun e k => Np.argmax e = Ok k) emotion idxs ->
  Forall (fun k => (k < m)%nat) idxs.
Proof.
  intros Hall. induction 1 as [|e k es ks Hk _ IH]; [constructor|].
  inversion Hall as [|? ? He Hes]; subst.
  constructor; [|by apply IH].
  by apply first_max_lt_length, argmax_first_max.
Qed.

Lemma majority_has_vote (m : nat) (idxs : list nat) (c : nat) :
  idxs <> [] -> Forall (fun k => (k < m)%nat) idxs ->
  majority m idxs c -> In c idxs.
Proof.
  intros Hne Hlt (_ & Hle & _). destruct idxs as [|k ks]; [done|].
  inversion Hlt as [|? ? Hk _]; subst. specialize (Hle k Hk).
  apply (count_occ_In Nat.eq_dec).
  assert (count_occ Nat.eq_dec (k :: ks) k > 0)%nat
    by (apply (count_occ_In Nat.eq_dec); by left).
  lia.
Qed.

Lemma count_occ_two (l : list nat) (c c' : nat) :
  c <> c' ->
  (count_occ Nat.eq_dec l c + count_occ Nat.eq_dec l c' <= length l)%nat.
Proof.
  intros Hne. induction l as [|k l IH]; simpl; [lia|].
  destruct (Nat.eq_dec k c), (Nat.eq_dec k c'); subst; try done; lia.
Qed.

Lemma strict_majority_wins (m : nat) (idxs : list nat) (c c' : nat) :
  (c < m)%nat -> (length idxs < 2 * count_occ Nat.eq_dec idxs c)%nat ->
  majority m idxs c' -> c' = c.
Proof.
  intros Hc Hhalf (_ & Hle & _). specialize (Hle c Hc).
  destruct (Nat.eq_dec c' c) as [|Hne]; [done|].
  pose proof (count_occ_two idxs c' c Hne). lia.
Qed.

(** X11. On every non-empty ensemble output the consensus class is the class
    of at least one branch: the label appended last also occurs among the
    labels of the branches, at the position of a branch whose own best class
    it is. *)
Theorem X11_consensus_is_some_branch `{E : Externals} (w : world) (d : device)
    (net : ensemble) (input_face : tensor) (n m : nat)
    (emotion affect : list (list Q)) :
  esr_ready w d net ->
  ensemble_run net input_face = (emotion, affect) ->
  (1 <= n)%nat -> (1 <= m)%nat ->
  ensemble_output n m emotion affect ->
  exists consensus to_return_emotion to_return_affect w' i e,
    _predict input_face d w = (Ok (to_return_emotion, to_return_affect), w')
    /\ to_return_emotion !! n = Some (get_class consensus)
    /\ (i < n)%nat
    /\ to_return_emotion !! i = Some (get_class consensus)
    /\ emotion !! i = Some e
    /\ first_max e consensus.
Proof.
  intros Hready Hrun Hn Hm Hwf.
  destruct (_predict_run w d net input_face Hready) as (w' & Hp & _).
  rewrite Hrun in Hp. simpl in Hp.
  destruct (aggregate_ok numpy get_class n m emotion affect Hn Hm Hwf)
    as (idxs & votes & c & _ & Hidx & Hh & Hc & Hagg).
  rewrite Hagg in Hp. clear Hagg.
  destruct Hwf as (Hle & _ & He & _).
  pose proof (Forall2_length _ _ _ Hidx) as Hlen.
  assert (Hmaj : majority m idxs c).
  { eapply histogram_first_max_majority; [exact Hh|]. by apply argmax_first_max. }
  assert (Hin : In c idxs).
  { apply (majority_has_vote m); [|by eapply Forall2_argmax_lt|done].
    intros ->. simpl in Hlen. lia. }
  apply list_elem_of_In, list_elem_of_lookup in Hin as [i Hi].
  pose proof (lookup_lt_Some _ _ _ Hi) as Hilt.
  destruct (Forall2_lookup_r _ _ _ _ _ Hidx Hi) as (e & Hei & Hek).
  exists c. do 2 eexists. exists w', i, e.
  split; [exact Hp|]. split; [|split; [lia|split; [|split]]].
  - rewrite lookup_app_r by (rewrite length_map; lia).
    rewrite length_map. replace (n - length idxs)%nat with 0%nat by lia. done.
  - rewrite lookup_app_l by (rewrite length_map; lia).
    by rewrite list_lookup_fmap, Hi.
  - exact Hei.
  - by apply argmax_first_max.
Qed.

Lemma X11_consensus_is_some_branch_witness :
  esr_ready (E := Demo.externals) Demo.fresh cpu tt
  /\ exists consensus to_return_emotion to_return_affect w' i e,
       _predict (E := Demo.externals)
         (Outputs.emotion_0_1, Outputs.affect_2) cpu Demo.fresh
       = (Ok (to_return_emotion, to_return_affect), w')
       /\ to_return_emotion !! i = Some (Demo.affectnet_class consensus)
       /\ Outputs.emotion_0_1 !! i = Some e
       /\ first_max e consensus.
Proof.
  assert (Hr : esr_ready (E := Demo.externals) Demo.fresh cpu tt)
    by (right; split; reflexivity).
  split; [exact Hr|].
  destruct (X11_consensus_is_some_branch (E := Demo.externals) Demo.fresh cpu
              tt (Outputs.emotion_0_1, Outputs.affect_2) 2 2
              Outputs.emotion_0_1 Outputs.affect_2 Hr eq_refl
              ltac:(lia) ltac:(lia)
              ltac:(repeat split; repeat constructor))
    as (c & em & af & w' & i & e & Hp & _ & _ & Hi & He & Hfm).
  exists c, em, af, w', i, e. repeat split; assumption.
Defined.

(** X12. A class that is the best class of more than half of the branches
    wins: the labels returned are the labels of the branches' best classes
    followed by the label of that class. In particular a unanimous ensemble
    returns its common class as the consensus. *)
Theorem X12_strict_majority_wins `{E : Externals} (w : world) (d : device)
    (net : ensemble) (input_face : tensor) (n m : nat)
    (emotion affect : list (list Q)) (c : nat) :
  esr_ready w d net ->
  ensemble_run net input_face = (emotion, affect) ->
  (1 <= n)%nat -> (1 <= m)%nat ->
  ensemble_output n m emotion affect ->
  (n < 2 * count_occ Nat.eq_dec (map branch_class emotion) c)%nat ->
  exists to_return_affect w',
    _predict input_face d w
    = (Ok (map get_class (map branch_class emotion) ++ [get_class c],
           to_return_affect), w').
Proof.
  intros Hready Hrun Hn Hm Hwf Hhalf.
  destruct (_predict_run w d net input_face Hready) as (w' & Hp & _).
  rewrite Hrun in Hp. simpl in Hp.
  destruct (aggregate_ok numpy get_class n m emotion affect Hn Hm Hwf)
    as (idxs & votes & c' & _ & Hidx & Hh & Hc & Hagg).
  rewrite Hagg in Hp. clear Hagg.
  destruct Hwf as (Hle & _ & He & _).
  pose proof (Forall2_argmax_lt m emotion idxs He Hidx) as Hlt.
  pose proof (Forall2_length _ _ _ Hidx) as Hlen.
  apply Forall2_argmax_branch_class in Hidx. subst idxs.
  assert (Hmaj : majority m (map branch_class emotion) c').
  { eapply histogram_first_max_majority; [exact Hh|]. by apply argmax_first_max. }
  assert (Hcm : (c < m)%nat).
  { assert (Hin : In c (map branch_class emotion))
      by (apply (count_occ_In Nat.eq_dec); lia).
    rewrite Forall_forall in Hlt. by apply Hlt, list_elem_of_In. }
  assert (c' = c) as ->.
  { apply (strict_majority_wins m (map branch_class emotion)); [done| |done].
    lia. }
  by do 2 eexists.
Qed.

Lemma X12_strict_majority_wins_witness :
  exists to_return_affect w',
    _predict (E := Demo.externals)
      (Outputs.emotion_1_1_2, Outputs.affect_3) cpu Demo.fresh
    = (Ok (["Happy"; "Happy"; "Sad"; "Happy"]%string, to_return_affect), w').
Proof.
  apply (X12_strict_majority_wins (E := Demo.externals) Demo.fresh cpu tt
           (Outputs.emotion_1_1_2, Outputs.affect_3) 3 3
           Outputs.emotion_1_1_2 Outputs.affect_3 1%nat).
  - right. split; reflexivity.
  - reflexivity.
  - lia.
  - lia.
  - repeat split; repeat constructor.
  - vm_compute. lia.
Defined.

Lemma majority_Permutation (m : nat) (idxs idxs' : list nat) (c : nat) :
  idxs ≡ₚ idxs' -> majority m idxs c -> majority m idxs' c.
Proof.
  intros Hperm (Hc & Hle & Hlt).
  pose proof (proj1 (Permutation_count_occ Nat.eq_dec idxs idxs') Hperm) as Hcnt.
  split; [done|]. split.
  - intros c' Hc'. rewrite <- !Hcnt. by apply Hle.
  - intros c' Hc'. rewrite <- !Hcnt. by apply Hlt.
Qed.

(** X13. The consensus does not depend on the order of the branches: for two
    non-empty ensemble outputs whose emotion-score vectors are the same up
    to their order, [_predict] appends the same consensus label, and the
    labels of the branches are the same up to their order. *)
Theorem X13_consensus_independent_of_branch_order `{E : Externals}
    (w1 w2 : world) (d : device) (net : ensemble) (t1 t2 : tensor)
    (n m : nat) (emotion1 affect1 emotion2 affect2 : list (list Q)) :
  esr_ready w1 d net -> esr_ready w2 d net ->
  ensemble_run net t1 = (emotion1, affect1) ->
  ensemble_run net t2 = (emotion2, affect2) ->
  (1 <= n)%nat -> (1 <= m)%nat ->
  ensemble_output n m emotion1 affect1 ->
  ensemble_output n m emotion2 affect2 ->
  emotion1 ≡ₚ emotion2 ->
  exists labels1 labels2 consensus vectors1 vectors2 w1' w2',
    _predict t1 d w1 = (Ok (labels1 ++ [consensus], vectors1), w1')
    /\ _predict t2 d w2 = (Ok (labels2 ++ [consensus], vectors2), w2')
    /\ length labels1 = n /\ length labels2 = n
    /\ labels1 ≡ₚ labels2.
Proof.
  intros Hr1 Hr2 Hrun1 Hrun2 Hn Hm Hwf1 Hwf2 Hperm.
  destruct (_predict_run w1 d net t1 Hr1) as (w1' & Hp1 & _).
  destruct (_predict_run w2 d net t2 Hr2) as (w2' & Hp2 & _).
  rewrite Hrun1 in Hp1. rewrite Hrun2 in Hp2. simpl in Hp1, Hp2.
  destruct (aggregate_ok numpy get_class n m emotion1 affect1 Hn Hm Hwf1)
    as (idxs1 & votes1 & c1 & _ & Hidx1 & Hh1 & Hc1 & Hagg1).
  destruct (aggregate_ok numpy get_class n m emotion2 affect2 Hn Hm Hwf2)
    as (idxs2 & votes2 & c2 & _ & Hidx2 & Hh2 & Hc2 & Hagg2).
  rewrite Hagg1 in Hp1. rewrite Hagg2 in Hp2. clear Hagg1 Hagg2.
  pose proof (Forall2_length _ _ _ Hidx1) as Hlen1.
  pose proof (Forall2_length _ _ _ Hidx2) as Hlen2.
  apply Forall2_argmax_branch_class in Hidx1, Hidx2. subst idxs1 idxs2.
  assert (Hpi : map branch_class emotion1 ≡ₚ map branch_class emotion2)
    by by apply fmap_Permutation.
  assert (Hm1 : majority m (map branch_class emotion1) c1).
  { eapply histogram_first_max_majority; [exact Hh1|]. by apply argmax_first_max. }
  assert (Hm2 : majority m (map branch_class emotion2) c2).
  { eapply histogram_first_max_majority; [exact Hh2|]. by apply argmax_first_max. }
  assert (c1 = c2) as ->.
  { apply (majority_unique m (map branch_class emotion2)); [|done].
    by apply (majority_Permutation m (map branch_class emotion1)). }
  do 7 eexists. split; [exact Hp1|]. split; [exact Hp2|].
  destruct Hwf1 as (Hle1 & _). destruct Hwf2 as (Hle2 & _).
  split; [rewrite length_map; lia|]. split; [rewrite length_map; lia|].
  by apply fmap_Permutation.
Qed.

Lemma X13_consensus_independent_of_branch_order_witness :
  exists labels1 labels2 consensus vectors1 vectors2 w1' w2',
    _predict (E := Demo.externals)
      (Outputs.emotion_0_1, Outputs.affect_2) cpu Demo.fresh
    = (Ok (labels1 ++ [consensus], vectors1), w1')
    /\ _predict (E := Demo.externals)
         (reverse Outputs.emotion_0_1, Outputs.affect_2) cpu DemoStates.warm
       = (Ok (labels2 ++ [consensus], vectors2), w2')
    /\ labels1 ≡ₚ labels2.
Proof.
  destruct (X13_consensus_independent_of_branch_order (E := Demo.externals)
              Demo.fresh DemoStates.warm cpu tt
              (Outputs.emotion_0_1, Outputs.affect_2)
              (reverse Outputs.emotion_0_1, Outputs.affect_2) 2 2
              Outputs.emotion_0_1 Outputs.affect_2
              (reverse Outputs.emotion_0_1) Outputs.affect_2)
    as (l1 & l2 & c & v1 & v2 & w1' & w2' & Hp1 & Hp2 & _ & _ & Hperm).
  - right. split; reflexivity.
  - left. reflexivity.
  - reflexivity.
  - reflexivity.
  - lia.
  - lia.
  - repeat split; repeat constructor.
  - repeat split; repeat constructor.
  - apply Permutation_swap.
  - exists l1, l2, c, v1, v2, w1', w2'.
    split; [exact Hp1|]. split; [exact Hp2|exact Hperm].
Defined.

(** ** Degenerate ensemble outputs *)

(** X14. When the branches (at least one) report emotion-score vectors with
    no class at all, [_predict] raises [ValueError]: [np.argmax] has nothing
    to choose from in the first branch. The affect block has run by then,
    but nothing is returned. *)
Theorem X14_no_emotion_classes_raises `{E : Externals} (w : world)
    (d : device) (net : ensemble) (input_face : tensor) (n : nat)
    (emotion affect : list (list Q)) :
  esr_ready w d net ->
  ensemble_run net input_face = (emotion, affect) ->
  (1 <= n)%nat ->
  ensemble_output n 0 emotion affect ->
  exists w', _predict input_face d w = (Err ValueError, w').
Proof.
  intros Hready Hrun Hn (Hle & Hla & He & Ha).
  destruct (_predict_run w d net input_face Hready) as (w' & Hp & _).
  rewrite Hrun in Hp. simpl in Hp. exists w'. rewrite Hp. f_equal.
  unfold aggregate.
  rewrite (_predict_affect_ok numpy affect 2) by (done || lia). simpl.
  unfold _predict_emotion.
  rewrite (array_uniform numpy emotion 0) by (done || lia). simpl.
  destruct emotion as [|e es]; [simpl in Hle; lia|].
  inversion He as [|? ? He0 _]; subst.
  destruct e; [reflexivity|discriminate].
Qed.

Lemma X14_no_emotion_classes_raises_witness :
  exists w',
    _predict (E := Demo.externals)
      (EdgeOutputs.emotion_no_classes, Outputs.affect_2) cpu Demo.fresh
    = (Err ValueError, w').
Proof.
  apply (X14_no_emotion_classes_raises (E := Demo.externals) Demo.fresh cpu tt
           (EdgeOutputs.emotion_no_classes, Outputs.affect_2) 2
           EdgeOutputs.emotion_no_classes Outputs.affect_2).
  - right. split; reflexivity.
  - reflexivity.
  - lia.
  - repeat split; repeat constructor.
Defined.

(** X15. When the branches (at least one) report affect vectors of one and
    the same length below two, [_predict] raises [IndexError] at
    [affect[:, 1]], whatever the emotion scores are: the affect block runs
    before the emotion block. *)
Theorem X15_short_affect_raises `{E : Externals} (w : world) (d : device)
    (net : ensemble) (input_face : tensor) (k : nat)
    (emotion affect : list (list Q)) :
  esr_ready w d net ->
  ensemble_run net input_face = (emotion, affect) ->
  (1 <= length affect)%nat ->
  Forall (fun a => length a = k) affect ->
  (k < 2)%nat ->
  exists w', _predict input_face d w = (Err IndexError, w').
Proof.
  intros Hready Hrun Hn Ha Hk.
  destruct (_predict_run w d net input_face Hready) as (w' & Hp & _).
  rewrite Hrun in Hp. simpl in Hp. exists w'. rewrite Hp. f_equal.
  unfold aggregate, _predict_affect.
  rewrite (array_uniform numpy affect k) by (done || lia). simpl.
  destruct (Nat.ltb_spec 1 k) as [Hlt|_]; [lia|reflexivity].
Qed.

Lemma X15_short_affect_raises_witness :
  exists w',
    _predict (E := Demo.externals)
      (Outputs.emotion_ragged, EdgeOutputs.affect_valence_only) cpu Demo.fresh
    = (Err IndexError, w').
Proof.
  apply (X15_short_affect_raises (E := Demo.externals) Demo.fresh cpu tt
           (Outputs.emotion_ragged, EdgeOutputs.affect_valence_only) 1
           Outputs.emotion_ragged EdgeOutputs.affect_valence_only).
  - right. split; reflexivity.
  - reflexivity.
  - simpl. lia.
  - repeat constructor.
  - lia.
Defined.

(** * Lazy initialisation under every schedule *)

Section AnySchedule.

Context {E : Externals} {H : Type} (g : lazy_global H) (h : H).
Hypothesis Hlaw : lawful g.
Hypothesis Hnew : construct g = Ok h.

(** The global never goes back to [None] and holds no other handle. *)
Lemma thread_step_read (p : pc H) (w : world) :
  pc_ok g h w p ->
  read g w = Some h -> read g (thread_step g p w).2 = Some h.
Proof.
  destruct Hlaw as (Hread & _ & Hemit & _).
  intros Hok Hr. destruct p; unfold thread_step; cbn [snd]; try done.
  - by rewrite Hemit.
  - simpl in Hok. subst. apply Hread.
Qed.

Lemma thread_step_global (p : pc H) (w : world) :
  pc_ok g h w p ->
  read g w = None \/ read g w = Some h ->
  read g (thread_step g p w).2 = None
  \/ read g (thread_step g p w).2 = Some h.
Proof.
  destruct Hlaw as (Hread & _ & Hemit & _).
  intros Hok Hg. destruct p; unfold thread_step; cbn [snd]; try done.
  - by rewrite Hemit.
  - simpl in Hok. subst. right. apply Hread.
Qed.

Lemma thread_step_ok (p : pc H) (w : world) :
  read g w = None \/ read g w = Some h ->
  pc_ok g h w p -> pc_ok g h (thread_step g p w).2 (thread_step g p w).1.
Proof.
  destruct Hlaw as (Hread & _ & Hemit & _).
  intros Hg Hok. destruct p; unfold thread_step; cbn [fst snd]; simpl in Hok;
    try done.
  - destruct Hg as [Hg|Hg]; by rewrite Hg.
  - by rewrite Hnew.
  - subst. apply Hread.
  - by rewrite Hok.
Qed.

(** A step of one caller keeps what holds of the others. *)
Lemma thread_step_others (p q : pc H) (w : world) :
  pc_ok g h w p -> pc_ok g h w q -> pc_ok g h (thread_step g p w).2 q.
Proof.
  intros Hp Hq. destruct q; simpl in *; try done.
  - by apply thread_step_read.
  - destruct Hq as [-> Hr]. split; [done|]. by apply thread_step_read.
Qed.

Lemma thread_step_count (p : pc H) (w : world) :
  (constructions g (thread_step g p w).2
   + (if may_construct (thread_step g p w).1 then 1 else 0)
   <= constructions g w + (if may_construct p then 1 else 0))%nat.
Proof.
  destruct Hlaw as (_ & Hcalls & _ & Hev).
  destruct p; unfold thread_step; cbn [fst snd]; try done.
  - destruct (read g w); simpl; lia.
  - rewrite Hnew. unfold constructions. cbn [may_construct].
    change (calls (emit (construct_event g) w).2)
      with (calls w ++ [construct_event g]).
    rewrite List.filter_app, length_app. simpl. rewrite Hev. simpl. lia.
  - unfold constructions. rewrite Hcalls. simpl. lia.
  - destruct (read g w); simpl; lia.
Qed.

Lemma pending_middle (pre post : list (pc H)) (p : pc H) :
  pending (pre ++ p :: post)
  = (pending pre + (if may_construct p then 1 else 0) + pending post)%nat.
Proof.
  unfold pending. rewrite List.filter_app, length_app. simpl.
  destruct (may_construct p); simpl; lia.
Qed.

(** What every schedule keeps. *)
Lemma pool_step_invariant (pool : list (pc H)) (w : world) (i : nat) :
  (read g w = None \/ read g w = Some h) /\ Forall (pc_ok g h w) pool ->
  ((read g (pool_step g (pool, w) i).2 = None
    \/ read g (pool_step g (pool, w) i).2 = Some h)
   /\ Forall (pc_ok g h (pool_step g (pool, w) i).2)
        (pool_step g (pool, w) i).1)
  /\ (constructions g (pool_step g (pool, w) i).2
      + pending (pool_step g (pool, w) i).1
      <= constructions g w + pending pool)%nat
  /\ length (pool_step g (pool, w) i).1 = length pool.
Proof.
  intros [Hg Hall]. destruct (pool !! i) as [p|] eqn:Hi.
  - destruct (list_elem_of_split_length _ _ _ Hi) as (pre & post & -> & ->).
    rewrite pool_step_at. cbn [fst snd].
    apply Forall_app in Hall as [Hpre Hrest].
    inversion Hrest as [|? ? Hp Hpost]; subst.
    split; [split|split].
    + by apply thread_step_global.
    + apply Forall_app. split; [|constructor].
      * eapply Forall_impl; [exact Hpre|]. intros q Hq.
        by apply thread_step_others.
      * by apply thread_step_ok.
      * eapply Forall_impl; [exact Hpost|]. intros q Hq.
        by apply thread_step_others.
    + rewrite !pending_middle. pose proof (thread_step_count p w). lia.
    + rewrite !length_app. simpl. lia.
  - unfold pool_step. simpl. rewrite Hi. done.
Qed.

Lemma exec_invariant (schedule : list nat) :
  forall (pool : list (pc H)) (w : world),
    (read g w = None \/ read g w = Some h) /\ Forall (pc_ok g h w) pool ->
    ((read g (exec g schedule (pool, w)).2 = None
      \/ read g (exec g schedule (pool, w)).2 = Some h)
     /\ Forall (pc_ok g h (exec g schedule (pool, w)).2)
          (exec g schedule (pool, w)).1)
    /\ (constructions g (exec g schedule (pool, w)).2
        + pending (exec g schedule (pool, w)).1
        <= constructions g w + pending pool)%nat
    /\ length (exec g schedule (pool, w)).1 = length pool.
Proof.
  induction schedule as [|i schedule IH]; intros pool w Hinv; [done|].
  destruct (pool_step_invariant pool w i Hinv) as (Hinv1 & Hcount1 & Hlen1).
  change (exec g (i :: schedule) (pool, w))
    with (exec g schedule (pool_step g (pool, w) i)).
  destruct (pool_step g (pool, w) i) as [pool1 w1]. cbn [fst snd] in *.
  destruct (IH pool1 w1 Hinv1) as (Hinv2 & Hcount2 & Hlen2).
  split; [done|]. split; lia.
Qed.

Lemma pending_fresh (N : nat) : pending (replicate N (@AtTest H)) = N.
Proof.
  unfold pending. induction N as [|N IH]; simpl; [done|]. by rewrite IH.
Qed.

End AnySchedule.

(** X16. Whatever the order in which [N] callers take their steps through
    the three statements of a lazy initialisation, when the constructor
    returns a handle: no caller raises, every caller that got through holds
    the handle the constructor returns, the global then holds it too, and
    the constructor is called at most once per caller: the number of
    constructions and the number of callers that may still construct add up
    to at most [N]. Here the global is [None] when the callers start. *)
Theorem X16_any_schedule `{E : Externals} (k : handle_kind) (N : nat)
    (h : handle_type k) (w : world) (schedule : list nat) :
  read (global_of k) w = None ->
  construct (global_of k) = Ok h ->
  let final := exec (global_of k) schedule (replicate N AtTest, w) in
  length final.1 = N
  /\ (forall i e, final.1 !! i <> Some (Raised e))
  /\ (forall i h', final.1 !! i = Some (Holds h') ->
        h' = h /\ read (global_of k) final.2 = Some h)
  /\ (constructions (global_of k) final.2 + pending final.1
      <= constructions (global_of k) w + N)%nat.
Proof.
  intros Hnone Hnew final.
  assert (Hinit : Forall (pc_ok (global_of k) h w) (replicate N AtTest))
    by (apply Forall_replicate; exact I).
  destruct (exec_invariant (global_of k) h (global_of_lawful k) Hnew schedule
              (replicate N AtTest) w (conj (or_introl Hnone) Hinit))
    as ((_ & Hall) & Hcount & Hlen).
  fold final in Hall, Hcount, Hlen.
  rewrite pending_fresh in Hcount. rewrite length_replicate in Hlen.
  rewrite Forall_lookup in Hall.
  split; [exact Hlen|]. split; [|split; [|exact Hcount]].
  - intros i e Hi. exact (Hall i _ Hi).
  - intros i h' Hi. exact (Hall i _ Hi).
Qed.

Lemma X16_any_schedule_witness :
  (constructions (global_of CnnDetector)
     (exec (E := Demo.externals) (global_of CnnDetector)
        [0; 1; 2; 0; 1; 0; 2; 1; 0; 1; 2; 2]%nat
        (replicate 3 AtTest, Demo.fresh)).2
   + pending
       (exec (E := Demo.externals) (global_of CnnDetector)
          [0; 1; 2; 0; 1; 0; 2; 1; 0; 1; 2; 2]%nat
          (replicate 3 AtTest, Demo.fresh)).1
   <= 0 + 3)%nat.
Proof.
  exact (proj2 (proj2 (proj2
    (X16_any_schedule (E := Demo.externals) CnnDetector 3 tt Demo.fresh
       [0; 1; 2; 0; 1; 0; 2; 1; 0; 1; 2; 2]%nat eq_refl eq_refl)))).
Defined.
